(** * A shallow embedding of the HTTP server of [main.cpp]

    The development follows the class [HTTPServer]: the request parser
    ([parseRequest]), the response builder ([createResponse]), the route
    table ([addRoute]) and the per-connection handler ([handleClient]).

    - [std::string] is [string] (a sequence of 8-bit characters);
    - [std::map<std::string, T>] is [gmap string T];
    - [std::istringstream] is a record holding the unread characters and
      the two state bits the code observes ([eofbit], [failbit]);
    - a C++ exception is the [Throw] case of the type [result];
    - the socket calls [send] and [close] are events of a trace. *)

From Stdlib Require Import ZArith Ascii Lia.
From Stdlib Require Import DecimalFacts DecimalNat DecimalZ DecimalString.
From stdpp Require Import gmap strings.
From Equations Require Import Equations.
From Equations.Prop Require Import Logic.

Open Scope Z_scope.

(** ** Characters and strings *)

Definition NUL : ascii := "000"%char.
Definition LF : ascii := "010"%char.
Definition CR : ascii := "013"%char.
Definition COLON : ascii := ":"%char.

(** The string literal ["\r"] of the source, and the line terminator. *)
Definition CR_str : string := String CR "".
Definition CRLF : string := String CR (String LF "").

Module Str.

(** [s.empty()] *)
Definition empty (s : string) : bool :=
  match s with "" => true | String _ _ => false end.

(** [s.find(c)]; [None] stands for [std::string::npos]. *)
Fixpoint find (c : ascii) (s : string) : option nat :=
  match s with
  | "" => None
  | String a s' =>
      if Ascii.eqb a c then Some 0%nat else S <$> find c s'
  end.

Fixpoint drop (n : nat) (s : string) : string :=
  match n, s with
  | O, _ => s
  | S _, "" => ""
  | S n', String _ s' => drop n' s'
  end.

Fixpoint take (n : nat) (s : string) : string :=
  match n, s with
  | O, _ => ""
  | S _, "" => ""
  | S n', String a s' => String a (take n' s')
  end.

(** [s.back()], defined on a non-empty string only. *)
Fixpoint back (s : string) : option ascii :=
  match s with
  | "" => None
  | String a "" => Some a
  | String _ s' => back s'
  end.

(** [s.pop_back()] *)
Fixpoint pop_back (s : string) : string :=
  match s with
  | "" => ""
  | String _ "" => ""
  | String a s' => String a (pop_back s')
  end.

(** [s[i] = c], for an index inside the array. *)
Fixpoint set (i : nat) (c : ascii) (s : string) : string :=
  match s, i with
  | "", _ => ""
  | String _ s', O => String c s'
  | String a s', S i' => String a (set i' c s')
  end.

(** [std::string(p)] for a character array [p]: the characters before
    the first NUL. *)
Fixpoint of_c_str (p : string) : string :=
  match p with
  | "" => ""
  | String a p' => if Ascii.eqb a "000" then "" else String a (of_c_str p')
  end.

(** Membership of a character. *)
Fixpoint mem (c : ascii) (s : string) : bool :=
  match s with
  | "" => false
  | String a s' => Ascii.eqb a c || mem c s'
  end.

(** [s1] occurs in [s2] as a contiguous substring. *)
Definition contains (s1 s2 : string) : Prop :=
  ∃ pre post, s2 = pre +:+ s1 +:+ post.

End Str.

(** ** Exceptions *)

Inductive exn : Type :=
| out_of_range.

Inductive result (A : Type) : Type :=
| Ok (a : A)
| Throw (e : exn).
Arguments Ok {A} a.
Arguments Throw {A} e.

(** Sequencing: an exception skips the rest of the computation. *)
#[global] Instance result_bind : MBind result := λ A B k r,
  match r with
  | Ok a => k a
  | Throw e => Throw e
  end.

(** [s.substr(pos, count)]: throws [std::out_of_range] when
    [pos > s.size()]; [count = None] is the default [npos]. *)
Definition substr (s : string) (pos : nat) (count : option nat) : result string :=
  if (pos <=? String.length s)%nat then
    Ok (match count with
        | None => Str.drop pos s
        | Some n => Str.take n (Str.drop pos s)
        end)
  else Throw out_of_range.

(** ** Input string streams *)

Record istringstream : Type := mk_stream {
  buf : string;        (* characters not yet extracted *)
  eofbit : bool;
  failbit : bool
}.

Definition open (s : string) : istringstream :=
  {| buf := s; eofbit := false; failbit := false |}.

Definition good (st : istringstream) : bool :=
  negb (eofbit st) && negb (failbit st).

(** [operator bool]: the stream has not failed. *)
Definition to_bool (st : istringstream) : bool := negb (failbit st).

Definition eof (st : istringstream) : bool := eofbit st.

Definition set_fail (st : istringstream) : istringstream :=
  {| buf := buf st; eofbit := eofbit st; failbit := true |}.

(** The characters before the first line feed, and what follows that
    line feed ([None] when the input ends first). *)
Fixpoint split_line (s : string) : string * option string :=
  match s with
  | "" => ("", None)
  | String a s' =>
      if Ascii.eqb a LF then ("", Some s')
      else let '(l, r) := split_line s' in (String a l, r)
  end.

(** [std::getline(stream, line)]: the new stream state and the new
    contents of [line]. *)
Definition getline (st : istringstream) (line : string) : istringstream * string :=
  if good st then
    match split_line (buf st) with
    | (l, Some rest) => ({| buf := rest; eofbit := false; failbit := false |}, l)
    | (l, None) => ({| buf := ""; eofbit := true; failbit := Str.empty l |}, l)
    end
  else (set_fail st, line).

Fixpoint skip_ws (s : string) : string :=
  match s with
  | "" => ""
  | String a s' => if Ascii.is_space a then skip_ws s' else s
  end.

(** The longest prefix without white space, and the rest. *)
Fixpoint span_word (s : string) : string * string :=
  match s with
  | "" => ("", "")
  | String a s' =>
      if Ascii.is_space a then ("", s)
      else let '(w, r) := span_word s' in (String a w, r)
  end.

(** [stream >> str] for a [std::string]. *)
Definition extract (st : istringstream) (str : string) : istringstream * string :=
  if good st then
    match skip_ws (buf st) with
    | "" => ({| buf := ""; eofbit := true; failbit := true |}, str)
    | s =>
        let '(w, rest) := span_word s in
        ({| buf := rest; eofbit := Str.empty rest; failbit := false |}, w)
    end
  else (set_fail st, str).

(** ** The request parser *)

Record HTTPRequest : Type := mk_request {
  method : string;
  path : string;
  version : string;
  headers : gmap string string;
  body : string
}.

(** [lineStream >> req.method >> req.path >> req.version] *)
Definition parse_request_line (line : string) : string * string * string :=
  let lineStream := open line in
  let '(lineStream, m) := extract lineStream "" in
  let '(lineStream, p) := extract lineStream "" in
  let '(lineStream, v) := extract lineStream "" in
  (m, p, v).

(** [if (!value.empty() && value.back() == '\r') value.pop_back();] *)
Definition strip_cr (value : string) : string :=
  if negb (Str.empty value) && bool_decide (Str.back value = Some CR)
  then Str.pop_back value else value.

(** The body of the header loop, for a line that is not ["\r"]. *)
Definition header_line (line : string) (hs : gmap string string)
  : result (gmap string string) :=
  match Str.find COLON line with
  | Some colon =>
      key ← substr line 0 (Some colon) ;
      value ← substr line (colon + 2) None ;
      let value := strip_cr value in
      Ok (<[key := value]> hs)
  | None => Ok hs
  end.

(** A successful [getline] takes at least one character off the
    stream: this is why the two loops below terminate. *)
Ltac getline_consumes :=
  lazymatch goal with
  | Hget : getline ?st ?line = (?st', ?line'), Hok : to_bool ?st' = true |- _ =>
      clear - Hget Hok;
      let Hs := fresh "Hs" in
      assert (∀ s l rest, split_line s = (l, Some rest) →
                (String.length rest < String.length s)%nat) as Hs
        by (let s := fresh "s" in
            intros s; induction s as [|? ? ?IH]; intros ? ?; simpl; [done|];
            destruct (Ascii.eqb _ LF); [intros [= _ <-]; lia|];
            destruct (split_line _); intros [= _ ->];
            match goal with IH : ∀ l rest, _ |- _ =>
              specialize (IH _ _ eq_refl) end; lia);
      revert Hget Hok; unfold getline, to_bool;
      destruct (good st); [|intros [= <- _]; done];
      let E := fresh "E" in
      destruct (split_line (buf st)) as [? [?|]] eqn:E; intros [= <- <-]; simpl;
      [ intros _; by eapply Hs
      | destruct (buf st); simpl in *; [by injection E as <-|intros _; lia] ]
  end.

(** [while (std::getline(stream, line) && line != "\r") { ... }] *)
Equations? parse_headers (st : istringstream) (line : string)
  (hs : gmap string string)
  : result (istringstream * string * gmap string string)
  by wf (String.length (buf st)) lt :=
parse_headers st line hs with inspect (getline st line) := {
  | exist _ (st', line') Hget with inspect (to_bool st') := {
    | exist _ true Hok =>
        if bool_decide (line' = CR_str) then Ok (st', line', hs)
        else match header_line line' hs with
             | Ok hs' => parse_headers st' line' hs'
             | Throw e => Throw e
             end
    | exist _ false _ => Ok (st', line', hs) } }.
Proof. getline_consumes. Qed.

(** [while (std::getline(stream, line)) { bodyStream << line; ... }] *)
Equations? parse_body (st : istringstream) (line : string) (bodyStream : string)
  : string by wf (String.length (buf st)) lt :=
parse_body st line bodyStream with inspect (getline st line) := {
  | exist _ (st', line') Hget with inspect (to_bool st') := {
    | exist _ true Hok =>
        let bodyStream := bodyStream +:+ line' in
        let bodyStream :=
          if negb (eof st') then bodyStream +:+ String LF "" else bodyStream in
        parse_body st' line' bodyStream
    | exist _ false _ => bodyStream } }.
Proof. getline_consumes. Qed.

Definition parseRequest (request : string) : result HTTPRequest :=
  let stream := open request in
  let '(stream, line) := getline stream "" in
  let '(m, p, v) :=
    if to_bool stream then parse_request_line line else ("", "", "") in
  '(stream, line, hs) ← parse_headers stream line ∅ ;
  let b := parse_body stream line "" in
  Ok {| method := m; path := p; version := v; headers := hs; body := b |}.

(** ** The response builder *)

(** An output string stream is the text written so far; the three
    overloads of [<<] the code uses append to it. *)
Definition ostringstream : Type := string.

Definition put_str (os : ostringstream) (s : string) : ostringstream := os +:+ s.

(** Decimal text of an [int] (with a minus sign when negative) and of a
    [size_t], as [<<] prints them. *)
Definition decimal_int (n : Z) : string := NilZero.string_of_int (Z.to_int n).
Definition decimal_size (n : nat) : string := NilZero.string_of_uint (Nat.to_uint n).

Definition put_int (os : ostringstream) (n : Z) : ostringstream :=
  os +:+ decimal_int n.

Definition put_size (os : ostringstream) (n : nat) : ostringstream :=
  os +:+ decimal_size n.

Definition createResponse (status_code : Z) (status_msg content : string)
    (content_type : string) : string :=
  let response : ostringstream := "" in
  let response :=
    put_str (put_str (put_str (put_int (put_str response "HTTP/1.1 ") status_code)
      " ") status_msg) CRLF in
  let response := put_str (put_str (put_str response "Content-Type: ") content_type) CRLF in
  let response :=
    put_str (put_size (put_str response "Content-Length: ") (String.length content)) CRLF in
  let response := put_str (put_str response "Connection: close") CRLF in
  let response := put_str response CRLF in
  let response := put_str response content in
  response.

(** ** The server and its route table *)

Abbreviation handler := (gmap string string → string).

Record HTTPServer : Type := mk_server {
  server_fd : Z;
  port : Z;
  running : bool;
  routes : gmap string handler
}.

(** [routes[path] = handler] *)
Definition addRoute (path : string) (h : handler) (srv : HTTPServer) : HTTPServer :=
  {| server_fd := server_fd srv; port := port srv; running := running srv;
     routes := <[path := h]> (routes srv) |}.

(** ** The connection handler *)

Definition BUFFER_SIZE : Z := 4096.

(** What [recv] left behind: its return value and the contents of the
    array [buffer] (the bytes read come first). *)
Record recv_result : Type := mk_recv {
  bytes_received : Z;
  buffer : string
}.

(** [recv] was given room for [BUFFER_SIZE - 1] bytes of the array. *)
Definition recv_ok (r : recv_result) : Prop :=
  bytes_received r ≤ BUFFER_SIZE - 1
  ∧ String.length (buffer r) = Z.to_nat BUFFER_SIZE.

Inductive event : Type :=
| Send (sock : Z) (bytes : string)
| Close (sock : Z).

(** [buffer[bytes_received] = 0; std::string request_str(buffer);] *)
Definition request_str (r : recv_result) : string :=
  let buffer := Str.set (Z.to_nat (bytes_received r)) NUL (buffer r) in
  Str.of_c_str buffer.

Definition not_found_page (path : string) : string :=
  "<!DOCTYPE html><html><head><title>404 Not Found</title></head>" +:+
  "<body><h1>404 Not Found</h1><p>The requested URL " +:+
  path +:+ " was not found on this server.</p></body></html>".

(** What a function working on a socket has done: the calls it made on
    the socket, in order, and how it was left (by returning, or by an
    exception that nothing catches). *)
Record io (A : Type) : Type := IO {
  events : list event;
  outcome : result A
}.
Arguments IO {A} events outcome.
Arguments events {A} _.
Arguments outcome {A} _.

#[global] Instance io_ret : MRet io := λ A a, IO [] (Ok a).

(** After an exception nothing more is called. *)
#[global] Instance io_bind : MBind io := λ A B k m,
  match outcome m with
  | Ok a => IO (events m ++ events (k a)) (outcome (k a))
  | Throw e => IO (events m) (Throw e)
  end.

(** A computation without socket calls. *)
Definition lift {A} (r : result A) : io A := IO [] r.

(** [send(sock, bytes.c_str(), bytes.length(), 0)] *)
Definition send (sock : Z) (bytes : string) : io unit :=
  IO [Send sock bytes] (Ok tt).

Definition closeSocket (sock : Z) : io unit :=
  IO [Close sock] (Ok tt).

Definition handleClient (srv : HTTPServer) (client_socket : Z) (r : recv_result)
  : io unit :=
  (if 0 <? bytes_received r then
     request ← lift (parseRequest (request_str r));
     let content_type := "text/html" in
     let '(response_content, status_code, status_msg) :=
       match routes srv !! path request with
       | Some h => (h (headers request), 200, "OK")
       | None => (not_found_page (path request), 404, "Not Found")
       end in
     let response :=
       createResponse status_code status_msg response_content content_type in
     send client_socket response
   else mret tt) ;;
  closeSocket client_socket.

(** ** The program: [main] and [start]

    Of the two branches of the source the one for POSIX systems is
    followed ([initNetwork] and [cleanupNetwork] do nothing there). *)

(** The double quote character (escaped in the literals of the source). *)
Definition DQ : string := String "034" "".

(** The three pages of [main]; [now] is what [std::time(nullptr)]
    returns when the handler of [/api/data] runs. *)
Definition home_page : string :=
  "<!DOCTYPE html>" +:+
  "<html>" +:+
  "<head><title>My C++ Server</title>" +:+
  "<style>" +:+
  "body { font-family: Arial, sans-serif; margin: 40px; background: #f0f0f0; }" +:+
  ".container { max-width: 800px; margin: 0 auto; background: white; padding: 20px; border-radius: 10px; }" +:+
  "h1 { color: #333; }" +:+
  ".nav a { margin-right: 15px; text-decoration: none; color: #0066cc; }" +:+
  "</style></head>" +:+
  "<body>" +:+
  "<div class='container'>" +:+
  "<h1>Welcome to C++ HTTP Server!</h1>" +:+
  "<p>This is a simple web server built with C++.</p>" +:+
  "<div class='nav'>" +:+
  "<a href='/'>Home</a>" +:+
  "<a href='/about'>About</a>" +:+
  "<a href='/api/data'>API Data</a>" +:+
  "</div>" +:+
  "</div>" +:+
  "</body></html>".

Definition about_page : string :=
  "<!DOCTYPE html>" +:+
  "<html>" +:+
  "<head><title>About</title></head>" +:+
  "<body>" +:+
  "<h1>About This Server</h1>" +:+
  "<p>This is a lightweight HTTP server written in C++.</p>" +:+
  "<p>Features:</p>" +:+
  "<ul>" +:+
  "<li>Multi-threaded request handling</li>" +:+
  "<li>Basic routing</li>" +:+
  "<li>Cross-platform (Windows/Linux)</li>" +:+
  "</ul>" +:+
  "<a href='/'>Back to Home</a>" +:+
  "</body></html>".

Definition api_data (now : Z) : string :=
  "{" +:+
  DQ +:+ "status" +:+ DQ +:+ ": " +:+ DQ +:+ "success" +:+ DQ +:+ "," +:+
  DQ +:+ "data" +:+ DQ +:+ ": {" +:+
  DQ +:+ "message" +:+ DQ +:+ ": " +:+ DQ +:+ "Hello from C++ Server!" +:+ DQ +:+ "," +:+
  DQ +:+ "timestamp" +:+ DQ +:+ ": " +:+ DQ +:+ decimal_int now +:+ DQ +:+ "," +:+
  DQ +:+ "version" +:+ DQ +:+ ": " +:+ DQ +:+ "1.0" +:+ DQ +:+
  "}" +:+
  "}".

(** [HTTPServer(port)]: the constructor sets [port] and [running];
    [server_fd] keeps whatever value [fd] it had. *)
Definition HTTPServer_new (port fd : Z) : HTTPServer :=
  {| server_fd := fd; port := port; running := false; routes := ∅ |}.

(** [stop()] *)
Definition stop (srv : HTTPServer) : HTTPServer :=
  {| server_fd := server_fd srv; port := port srv; running := false;
     routes := routes srv |}.

(** The server of [main] once its three routes are added. *)
Definition main_server (fd now : Z) : HTTPServer :=
  addRoute "/api/data" (λ _, api_data now)
    (addRoute "/about" (λ _, about_page)
       (addRoute "/" (λ _, home_page) (HTTPServer_new 8080 fd))).

(** *** [start] *)

(** The calls [start] makes and the lines it prints. *)
Inductive sys_event : Type :=
| Sys_socket                             (* socket(AF_INET, SOCK_STREAM, 0) *)
| Sys_setsockopt (fd : Z)                (* SO_REUSEADDR set to 1 *)
| Sys_bind (fd : Z) (bound_port : Z)     (* INADDR_ANY, the port as a number *)
| Sys_listen (fd : Z) (backlog : Z)
| Sys_accept (fd : Z)
| Sys_close (fd : Z)
| Spawn (client_socket : Z)              (* a detached thread on handleClient *)
| Cout (text : string)
| Cerr (text : string).

(** What the system answers: the results of [socket], [bind] and
    [listen], and for each turn of the loop the value of [running] the
    test reads ([false] once [stop] was called) and the result of
    [accept]. *)
Record environment : Type := mk_env {
  socket_result : Z;
  bind_result : Z;
  listen_result : Z;
  schedule : list (bool * Z)
}.

Definition endl : string := String LF "".

(** [htons(port)] takes an unsigned 16-bit number. *)
Definition htons_port (port : Z) : Z := port mod 65536.

(** [while (running) { accept ...; }]: the events of the turns the
    schedule describes, and whether the loop was left. *)
Fixpoint accept_loop (server_fd : Z) (schedule : list (bool * Z))
  : list sys_event * bool :=
  match schedule with
  | [] => ([], false)
  | (running_seen, client_socket) :: schedule =>
      if running_seen then
        let '(evs, exited) := accept_loop server_fd schedule in
        if client_socket <? 0 then
          (Sys_accept server_fd :: Cerr ("Accept failed" +:+ endl) :: evs, exited)
        else
          (Sys_accept server_fd :: Spawn client_socket :: evs, exited)
      else ([], true)
  end.

(** [start()]: the events, the server afterwards, and whether [start]
    has returned ([false]: the schedule ends with the loop still
    running). *)
Definition start (env : environment) (srv : HTTPServer)
  : list sys_event * HTTPServer * bool :=
  let server_fd := socket_result env in
  let srv := {| server_fd := server_fd; port := port srv; running := running srv;
                routes := routes srv |} in
  if server_fd <? 0 then
    ([Sys_socket; Cerr ("Socket creation failed" +:+ endl)], srv, true)
  else if bind_result env <? 0 then
    ([Sys_socket; Sys_setsockopt server_fd;
      Sys_bind server_fd (htons_port (port srv));
      Cerr ("Bind failed" +:+ endl); Sys_close server_fd], srv, true)
  else if listen_result env <? 0 then
    ([Sys_socket; Sys_setsockopt server_fd;
      Sys_bind server_fd (htons_port (port srv));
      Sys_listen server_fd 10;
      Cerr ("Listen failed" +:+ endl); Sys_close server_fd], srv, true)
  else
    let setup :=
      [Sys_socket; Sys_setsockopt server_fd;
       Sys_bind server_fd (htons_port (port srv));
       Sys_listen server_fd 10;
       Cout (put_str (put_int (put_str "" "Server started on port ") (port srv)) endl);
       Cout (put_str (put_int (put_str "" "Access at: http://localhost:") (port srv)) endl)] in
    let srv := {| server_fd := server_fd; port := port srv; running := true;
                  routes := routes srv |} in
    let '(evs, exited) := accept_loop server_fd (schedule env) in
    if exited then (setup ++ evs ++ [Sys_close server_fd], stop srv, true)
    else (setup ++ evs, srv, false).

(** ** Handlers that throw, or read the state of the program

    A route holds a [std::function], and the call
    [routes[request.path](request.headers)] may throw, and may read
    and change what lies outside the server: the handler of
    [/api/data] in [main] reads the clock. Above, a handler is the
    text it gives for the headers, which is what one call that returns
    comes to. Here the call is taken with its effects: from the
    headers and the state [W] the program is in, it gives a text or an
    exception of [E], and the state after the call. *)

Module Calls.

Abbreviation handler W E := (gmap string string → W → (string + E) * W)%type.

(** The exception that left [handleClient]: the one of [substr], or one
    of a handler. *)
Inductive thrown (E : Type) : Type :=
| from_parser (e : exn)
| from_handler (e : E).
Arguments from_parser {E} e.
Arguments from_handler {E} e.

(** What a call of [handleClient] has done: the calls on the socket,
    how it was left, and the state of the program after it. *)
Record run (W E : Type) : Type := Run {
  calls : list event;
  ending : unit + thrown E;
  world : W
}.
Arguments Run {W E} calls ending world.
Arguments calls {W E} _.
Arguments ending {W E} _.
Arguments world {W E} _.

(** [closeSocket] is reached when the block of the [if] has been left
    without exception. *)
Definition handleClient {W E : Type} (routes : gmap string (handler W E))
    (client_socket : Z) (r : recv_result) (w : W) : run W E :=
  let received :=
    if 0 <? bytes_received r then
      match parseRequest (request_str r) with
      | Throw e => Run [] (inr (from_parser e)) w
      | Ok request =>
          let content_type := "text/html" in
          match routes !! path request with
          | Some h =>
              match h (headers request) w with
              | (inl response_content, w) =>
                  let response :=
                    createResponse 200 "OK" response_content content_type in
                  Run [Send client_socket response] (inl tt) w
              | (inr e, w) => Run [] (inr (from_handler e)) w
              end
          | None =>
              let response_content := not_found_page (path request) in
              let response :=
                createResponse 404 "Not Found" response_content content_type in
              Run [Send client_socket response] (inl tt) w
          end
      end
    else Run [] (inl tt) w in
  match ending received with
  | inl _ => Run (calls received ++ [Close client_socket]) (inl tt) (world received)
  | inr e => received
  end.

(** A handler that returns the text [h] gives and touches nothing. *)
Definition returning {W E : Type} (h : gmap string string → string) : handler W E :=
  λ hs w, (inl (h hs), w).

(** The routes of [main], the state being what the clock shows. *)
Definition main_routes {E : Type} : gmap string (handler Z E) :=
  <["/api/data" := λ _ now, (inl (api_data now), now)]>
    (<["/about" := returning (λ _, about_page)]>
       (<["/" := returning (λ _, home_page)]> ∅)).

End Calls.

(** * The vocabulary of the statements *)

(** The words still to be read from a stream. *)
Definition stream_words (st : istringstream) : list string :=
  if good st then String.words (buf st) else [].

(** The lines [getline] reads off a text, one after the other. *)
Inductive line_of (l : string) : string → Prop :=
| line_first s : s ≠ "" → (split_line s).1 = l → line_of l s
| line_later s l0 rest : split_line s = (l0, Some rest) → line_of l rest → line_of l s.

(** The line ends with its first colon: [colon + 2] is past its end. *)
Definition bare_colon (line : string) : bool :=
  match Str.find COLON line with
  | Some colon => (String.length line <? colon + 2)%nat
  | None => false
  end.

(** The field of index [i] of a request line. *)
Definition token (line : string) (i : nat) : string :=
  default "" (String.words line !! i).

(** What the first [getline] reads. *)
Definition first_line (request : string) : string := (split_line request).1.

(** Reading back the decimal text of a number. *)
Definition read_size (s : string) : option nat :=
  Nat.of_uint <$> NilZero.uint_of_string s.

Definition read_int (s : string) : option Z :=
  Z.of_int <$> NilZero.int_of_string s.

(** The text of a response, field by field. *)
Definition response_text (code_text msg ctype length_text content : string) : string :=
  "HTTP/1.1 " +:+ code_text +:+ " " +:+ msg +:+ CRLF +:+
  "Content-Type: " +:+ ctype +:+ CRLF +:+
  "Content-Length: " +:+ length_text +:+ CRLF +:+
  "Connection: close" +:+ CRLF +:+
  CRLF +:+
  content.

(** The sockets closed and the texts sent along a trace. *)
Definition closed (tr : list event) : list Z :=
  omap (λ e, match e with Close s => Some s | Send _ _ => None end) tr.

Definition sent (tr : list event) : list string :=
  omap (λ e, match e with Send _ b => Some b | Close _ => None end) tr.

(** The three ways through [handleClient]. *)
Inductive branch : Type :=
| empty_read
| matched_route
| not_found.

Definition takes_branch (srv : HTTPServer) (r : recv_result) (b : branch) : Prop :=
  match b with
  | empty_read => bytes_received r ≤ 0
  | matched_route =>
      0 < bytes_received r ∧
      ∃ req, parseRequest (request_str r) = Ok req ∧ is_Some (routes srv !! path req)
  | not_found =>
      0 < bytes_received r ∧
      ∃ req, parseRequest (request_str r) = Ok req ∧ routes srv !! path req = None
  end.

(** The text of one header line [Key: Value], with its line end. *)
Definition header_text (kv : string * string) : string :=
  kv.1 +:+ ": " +:+ kv.2 +:+ CRLF.

Fixpoint header_section (kvs : list (string * string)) : string :=
  match kvs with
  | [] => ""
  | kv :: kvs => header_text kv +:+ header_section kvs
  end.

(** The key holds neither a colon nor a line feed, the value holds no
    line feed. *)
Definition well_formed_header (kv : string * string) : Prop :=
  Str.mem COLON kv.1 = false ∧ Str.mem LF kv.1 = false ∧ Str.mem LF kv.2 = false.

(** Entering the pairs one after the other, a later one over an
    earlier one. *)
Definition record_headers (hs : gmap string string) (kvs : list (string * string))
  : gmap string string :=
  foldl (λ m kv, <[kv.1 := kv.2]> m) hs kvs.

(** A server with one route, and two requests, for the examples. *)
Definition demo_server : HTTPServer :=
  addRoute "/" (λ _, "hello")
    {| server_fd := 3; port := 8080; running := true; routes := ∅ |}.

(** [recv] has read [text] into the buffer. *)
Definition demo_recv (text : string) : recv_result :=
  {| bytes_received := Z.of_nat (String.length text);
     buffer := text +:+ "????" |}.

Definition demo_request : string :=
  "GET / HTTP/1.1" +:+ CRLF +:+ "Host: x" +:+ CRLF +:+ CRLF.

Definition demo_missing : string :=
  "GET /missing HTTP/1.1" +:+ CRLF +:+ CRLF.

(** The text of a list of lines, each ended by a line feed. *)
Definition lines_text (ls : list string) : string :=
  foldr (λ l acc, l +:+ String LF acc) "" ls.

(** The body of the header loop run over a list of lines. *)
Fixpoint record_lines (hs : gmap string string) (ls : list string)
  : result (gmap string string) :=
  match ls with
  | [] => Ok hs
  | l :: ls => hs' ← header_line l hs; record_lines hs' ls
  end.

(** A line [getline] can read in the header region: free of line
    feeds, and not the blank line. *)
Definition header_region_line (l : string) : Prop :=
  Str.mem LF l = false ∧ l ≠ CR_str.

(** A key has neither colon nor line feed, a value has no line feed. *)
Definition header_entry_ok (key value : string) : Prop :=
  Str.mem COLON key = false ∧ Str.mem LF key = false ∧ Str.mem LF value = false.

(** What is left of the text after its last line feed, as a header
    line: nothing when it is empty or the blank line. *)
Definition last_lines (last : string) : list string :=
  if bool_decide (last = "" ∨ last = CR_str) then [] else [last].

(** No white space in the text. *)
Fixpoint spaceless (s : string) : bool :=
  match s with
  | "" => true
  | String a s' => negb (Ascii.is_space a) && spaceless s'
  end.

(** A token of a request line. *)
Definition word (w : string) : Prop := w ≠ "" ∧ spaceless w = true.

(** The header line of a pair, as [getline] reads it. *)
Definition header_line_text (kv : string * string) : string :=
  kv.1 +:+ ": " +:+ kv.2 +:+ CR_str.

(** The handlers spawned, the descriptors closed, the accepts made. *)
Definition spawned (evs : list sys_event) : list Z :=
  omap (λ e, match e with Spawn c => Some c | _ => None end) evs.

Definition closed_fds (evs : list sys_event) : list Z :=
  omap (λ e, match e with Sys_close fd => Some fd | _ => None end) evs.

Definition accepts (evs : list sys_event) : nat :=
  length (omap (λ e, match e with Sys_accept fd => Some fd | _ => None end) evs).

Definition errors (evs : list sys_event) : list string :=
  omap (λ e, match e with Cerr t => Some t | _ => None end) evs.

Definition printed (evs : list sys_event) : list string :=
  omap (λ e, match e with Cout t => Some t | _ => None end) evs.

(** The body [main] serves at a path, if any. *)
Definition main_page (now : Z) (p : string) : option string :=
  if decide (p = "/") then Some home_page
  else if decide (p = "/about") then Some about_page
  else if decide (p = "/api/data") then Some (api_data now)
  else None.


Definition example_lines : list string :=
  ["Host: a" +:+ CR_str; "no colon here" +:+ CR_str; "Accept:*/*" +:+ CR_str].

Definition example_env (bind listen : Z) (sched : list (bool * Z)) : environment :=
  {| socket_result := 3; bind_result := bind; listen_result := listen;
     schedule := sched |}.

(** The socket an event is about. *)
Definition socket_of (e : event) : Z :=
  match e with Send s _ => s | Close s => s end.

(** The ending of a call without handler exceptions. *)
Definition ending_of {E : Type} (o : result unit) : unit + Calls.thrown E :=
  match o with
  | Ok _ => inl tt
  | Throw e => inr (Calls.from_parser e)
  end.

(** A handler that fails on requests without [Host] header and counts
    its calls. *)
Definition demo_counting : Calls.handler nat string :=
  λ hs n,
    match hs !! "Host" with
    | Some host => (inl ("hello " +:+ host), S n)
    | None => (inr "no host", S n)
    end.

(** * Properties *)

#[local] Arguments String.append !_ _ / : simpl nomatch.

(** ** Strings *)

Section strings.
Implicit Types (s t u : string) (c a : ascii) (n : nat).

Lemma app_assoc_s s t u : (s +:+ t) +:+ u = s +:+ t +:+ u.
Proof. induction s as [|a s IH]; simpl; [done|by rewrite IH]. Qed.

Lemma length_app_s s t :
  String.length (s +:+ t) = (String.length s + String.length t)%nat.
Proof. induction s as [|a s IH]; simpl; [done|by rewrite IH]. Qed.

Lemma mem_app c s t : Str.mem c (s +:+ t) = Str.mem c s || Str.mem c t.
Proof.
  induction s as [|a s IH]; simpl; [done|].
  by rewrite IH, orb_assoc.
Qed.

Lemma find_None c s : Str.find c s = None ↔ Str.mem c s = false.
Proof.
  induction s as [|a s IH]; simpl; [done|].
  destruct (Ascii.eqb a c); simpl; [done|].
  rewrite <-IH. by destruct (Str.find c s).
Qed.

(** [find] returns the position of the first occurrence. *)
Lemma find_first c s t :
  Str.mem c s = false →
  Str.find c (s +:+ String c t) = Some (String.length s).
Proof.
  induction s as [|a s IH]; simpl.
  - by rewrite Ascii.eqb_refl.
  - destruct (Ascii.eqb a c); simpl; [done|]. intros ->%IH. done.
Qed.

Lemma take_app_length s t : Str.take (String.length s) (s +:+ t) = s.
Proof. induction s as [|a s IH]; simpl; [by destruct t|by rewrite IH]. Qed.

Lemma drop_app_length s t n :
  Str.drop (String.length s + n) (s +:+ t) = Str.drop n t.
Proof. induction s as [|a s IH]; simpl; done. Qed.

Lemma split_line_line s t :
  Str.mem LF s = false → split_line (s +:+ String LF t) = (s, Some t).
Proof.
  induction s as [|a s IH]; simpl; [done|].
  destruct (Ascii.eqb a LF); simpl; [done|]. by intros ->%IH.
Qed.

Lemma split_line_last s :
  Str.mem LF s = false → split_line s = (s, None).
Proof.
  induction s as [|a s IH]; simpl; [done|].
  destruct (Ascii.eqb a LF); simpl; [done|]. by intros ->%IH.
Qed.

Lemma back_app_char s c : Str.back (s +:+ String c "") = Some c.
Proof.
  induction s as [|a s IH]; simpl; [done|].
  rewrite IH. by destruct s.
Qed.

Lemma pop_back_app_char s c : Str.pop_back (s +:+ String c "") = s.
Proof.
  induction s as [|a s IH]; simpl; [done|].
  rewrite IH. by destruct s.
Qed.

End strings.

(** ** Streams and the two loops of the parser *)

Section streams.
Implicit Types (s t line : string) (st : istringstream).
Implicit Types (hs : gmap string string).

Lemma getline_line s t line :
  Str.mem LF s = false →
  getline (open (s +:+ String LF t)) line = (open t, s).
Proof. intros Hs. unfold getline; simpl. by rewrite split_line_line. Qed.

Lemma getline_last s line :
  Str.mem LF s = false →
  getline (open s) line =
    ({| buf := ""; eofbit := true; failbit := Str.empty s |}, s).
Proof. intros Hs. unfold getline; simpl. by rewrite split_line_last. Qed.

(** Once the stream is at its end, or has failed, [getline] fails and
    leaves [line] alone. *)
Lemma getline_not_good st line :
  good st = false → getline st line = (set_fail st, line).
Proof. unfold getline. by intros ->. Qed.

(** One turn of the header loop. *)
Lemma parse_headers_step st line hs :
  parse_headers st line hs =
    let '(st', line') := getline st line in
    if to_bool st' then
      if bool_decide (line' = CR_str) then Ok (st', line', hs)
      else hs' ← header_line line' hs; parse_headers st' line' hs'
    else Ok (st', line', hs).
Proof.
  rewrite parse_headers_equation_1. simpl.
  destruct (getline st line) as [st' line']. simpl.
  by destruct (to_bool st').
Qed.

(** One turn of the body loop. *)
Lemma parse_body_step st line (os : ostringstream) :
  parse_body st line os =
    let '(st', line') := getline st line in
    if to_bool st' then
      let os := put_str os line' in
      let os := if negb (eof st') then put_str os (String LF "") else os in
      parse_body st' line' os
    else os.
Proof.
  rewrite parse_body_equation_1. simpl.
  destruct (getline st line) as [st' line']. simpl.
  by destruct (to_bool st').
Qed.

(** The header loop stops at the blank line and keeps it out of the
    mapping. *)
Lemma parse_headers_blank t line hs :
  parse_headers (open (CRLF +:+ t)) line hs = Ok (open t, CR_str, hs).
Proof.
  rewrite parse_headers_step.
  change (CRLF +:+ t) with (CR_str +:+ String LF t).
  by rewrite getline_line.
Qed.

Lemma parse_headers_end line hs :
  ∃ st', parse_headers (open "") line hs = Ok (st', "", hs) ∧ to_bool st' = false.
Proof. rewrite parse_headers_step. simpl. eauto. Qed.

Lemma strip_cr_CR s : strip_cr (s +:+ CR_str) = s.
Proof.
  unfold strip_cr, CR_str. rewrite back_app_char, pop_back_app_char.
  rewrite bool_decide_eq_true_2 by done. by destruct s.
Qed.

(** A line without colon is skipped. *)
Lemma header_line_no_colon line hs :
  Str.mem COLON line = false → header_line line hs = Ok hs.
Proof. intros H%find_None. unfold header_line. by rewrite H. Qed.

(** A line with a character after its first colon: that character is
    dropped and the rest, less one trailing carriage return, is the
    value. *)
Lemma header_line_split key c value hs :
  Str.mem COLON key = false →
  header_line (key +:+ String COLON (String c value)) hs =
    Ok (<[key := strip_cr value]> hs).
Proof.
  intros Hk. unfold header_line, substr. rewrite find_first by done.
  simpl. rewrite take_app_length, length_app_s. simpl.
  rewrite (proj2 (Nat.leb_le _ _)) by lia. simpl.
  by rewrite drop_app_length.
Qed.

(** A line that ends with its first colon makes [substr] throw. *)
Lemma header_line_throw key hs :
  Str.mem COLON key = false →
  header_line (key +:+ String COLON "") hs = Throw out_of_range.
Proof.
  intros Hk. unfold header_line, substr. rewrite find_first by done.
  simpl. rewrite length_app_s. simpl.
  by rewrite (proj2 (Nat.leb_gt _ _)) by lia.
Qed.

End streams.

(** ** The request line

    [String.words] of stdpp splits a string at white space; it is the
    reference the three extractions [>>] are compared with. *)

Section request_line.
Implicit Types (s line : string) (st : istringstream).

Lemma words_go_Some acc s :
  String.words_go (Some acc) s =
    let '(w, r) := span_word s in
    String.rev_app acc w :: String.words_go None r.
Proof.
  revert acc. induction s as [|a s IH]; intros acc; simpl; [done|].
  destruct (Ascii.is_space a) eqn:Ha; simpl.
  - by rewrite Ha.
  - rewrite IH. by destruct (span_word s).
Qed.

Lemma words_go_None s :
  String.words_go None s =
    match skip_ws s with
    | "" => []
    | s1 => let '(w, r) := span_word s1 in w :: String.words_go None r
    end.
Proof.
  induction s as [|a s IH]; simpl; [done|].
  destruct (Ascii.is_space a) eqn:Ha; simpl; [done|].
  rewrite words_go_Some, Ha. by destruct (span_word s).
Qed.

(** [stream >> str] reads the next word, and leaves [str] (here the
    empty string) alone when there is none. *)
Lemma extract_words st :
  (extract st "").2 = default "" (head (stream_words st)) ∧
  stream_words (extract st "").1 = tail (stream_words st).
Proof.
  unfold extract, stream_words. destruct (good st) eqn:Hg.
  2:{ unfold good, set_fail; simpl. by rewrite andb_false_r. }
  unfold String.words. rewrite words_go_None.
  destruct (skip_ws (buf st)) as [|a s] eqn:Hs; [done|]. cbv beta iota.
  destruct (span_word (String a s)) as [w r] eqn:Hw.
  split; [done|]. unfold good; simpl.
  by destruct r.
Qed.

Lemma parse_request_line_words line :
  parse_request_line line = (token line 0, token line 1, token line 2).
Proof.
  unfold parse_request_line, token.
  pose proof (extract_words (open line)) as [H1 H1'].
  destruct (extract (open line) "") as [st1 m]; simpl in *.
  pose proof (extract_words st1) as [H2 H2'].
  destruct (extract st1 "") as [st2 p]; simpl in *.
  pose proof (extract_words st2) as [H3 H3'].
  destruct (extract st2 "") as [st3 v]; simpl in *.
  rewrite H2' in H3. rewrite H1' in H2, H3.
  change (stream_words (open line)) with (String.words line) in *.
  subst. by destruct (String.words line) as [|? [|? [|? ?]]].
Qed.

End request_line.

(** ** The parser on a whole request *)

(** The request line never throws: whatever it holds, the three fields
    are its first three words, and the result of the parser is decided
    by the header loop alone. *)
Lemma parseRequest_tokens (request : string) :
  parseRequest request =
    let '(stream, line) := getline (open request) "" in
    '(stream', line', hs) ← parse_headers stream line ∅;
    Ok {| method := token (first_line request) 0;
          path := token (first_line request) 1;
          version := token (first_line request) 2;
          headers := hs;
          body := parse_body stream' line' "" |}.
Proof.
  unfold parseRequest, first_line.
  assert (let '(stream, line) := getline (open request) "" in
          (if to_bool stream then parse_request_line line else ("", "", "")) =
          (token (split_line request).1 0, token (split_line request).1 1,
           token (split_line request).1 2)) as Hline.
  { unfold getline; simpl.
    destruct (split_line request) as [l [rest|]] eqn:E; simpl.
    - apply parse_request_line_words.
    - destruct l; simpl; [done|]. apply parse_request_line_words. }
  destruct (getline (open request) "") as [stream line].
  rewrite Hline. done.
Qed.

(** A request that is a request line and nothing else. *)
Lemma parseRequest_one_line (request : string) :
  Str.mem LF request = false →
  parseRequest request =
    Ok {| method := token request 0; path := token request 1;
          version := token request 2; headers := ∅; body := "" |}.
Proof.
  intros Hlf. rewrite parseRequest_tokens. unfold first_line.
  rewrite getline_last, split_line_last by done.
  rewrite parse_headers_step, getline_not_good by done. simpl.
  by rewrite parse_body_step, getline_not_good.
Qed.

(** A request line followed by more lines. *)
Lemma parseRequest_lines (line rest : string) :
  Str.mem LF line = false →
  parseRequest (line +:+ String LF rest) =
    '(stream', line', hs) ← parse_headers (open rest) line ∅;
    Ok {| method := token line 0; path := token line 1; version := token line 2;
          headers := hs; body := parse_body stream' line' "" |}.
Proof.
  intros Hlf. rewrite parseRequest_tokens. unfold first_line.
  by rewrite getline_line, split_line_line.
Qed.

(** *** Well-formed header sections *)

Section header_section.
Implicit Types (hs : gmap string string) (kvs : list (string * string)).

Lemma record_headers_dom hs kvs :
  dom (record_headers hs kvs) = dom hs ∪ list_to_set kvs.*1.
Proof.
  revert hs. induction kvs as [|[k v] kvs IH]; intros hs; simpl.
  - by rewrite (right_id_L ∅ (∪)).
  - rewrite IH, dom_insert_L.
    by rewrite (comm_L (∪) {[k]} (dom hs)), (assoc_L (∪)).
Qed.

Lemma record_headers_other hs kvs k :
  k ∉ kvs.*1 → record_headers hs kvs !! k = hs !! k.
Proof.
  revert hs. induction kvs as [|[k' v] kvs IH]; intros hs; simpl; [done|].
  intros [Hk Hkvs]%not_elem_of_cons.
  rewrite IH by done. by rewrite lookup_insert_ne.
Qed.

Lemma record_headers_last hs before k v after :
  k ∉ after.*1 →
  record_headers hs (before ++ (k, v) :: after) !! k = Some v.
Proof.
  intros Hk. unfold record_headers. rewrite foldl_app. simpl.
  fold (record_headers (<[k:=v]> (foldl (λ m kv, <[kv.1:=kv.2]> m) hs before)) after).
  rewrite record_headers_other by done. apply lookup_insert_eq.
Qed.

Lemma record_headers_size kvs :
  size (record_headers ∅ kvs) = length (remove_dups kvs.*1).
Proof.
  rewrite <-size_dom, record_headers_dom, dom_empty_L, (left_id_L ∅ (∪)).
  rewrite <-(size_list_to_set (C:=gset string) (remove_dups kvs.*1))
    by apply NoDup_remove_dups.
  f_equal. apply set_eq. intros k.
  by rewrite !elem_of_list_to_set, elem_of_remove_dups.
Qed.

Lemma header_text_line kv :
  well_formed_header kv →
  ∃ line, header_text kv = line +:+ String LF ""
    ∧ line = kv.1 +:+ String COLON (String " " (kv.2 +:+ CR_str))
    ∧ Str.mem LF line = false ∧ line ≠ CR_str.
Proof.
  destruct kv as [k v]. intros (Hc & Hk & Hv); simpl in *.
  eexists; split_and!; [|done| |].
  - unfold header_text, CRLF, CR_str; simpl.
    by repeat (rewrite app_assoc_s; simpl).
  - rewrite mem_app, Hk. simpl. by rewrite mem_app, Hv.
  - intros Heq. apply (f_equal (Str.mem COLON)) in Heq.
    rewrite mem_app in Heq. simpl in Heq. by rewrite orb_true_r in Heq.
Qed.

(** The header loop over a well-formed section, up to the blank line
    or to the end of the input. *)
Lemma parse_headers_section kvs tail line hs :
  Forall well_formed_header kvs →
  tail = "" ∨ (∃ b, tail = CRLF +:+ b) →
  ∃ st' line',
    parse_headers (open (header_section kvs +:+ tail)) line hs =
      Ok (st', line', record_headers hs kvs).
Proof.
  intros Hwf Htail. revert line hs.
  induction Hwf as [|kv kvs Hkv Hkvs IH]; intros line hs; simpl.
  - destruct Htail as [->|[b ->]].
    + destruct (parse_headers_end line hs) as (st' & -> & _). eauto.
    + rewrite parse_headers_blank. eauto.
  - destruct (header_text_line kv Hkv) as (l & -> & Hl & Hlf & Hcr).
    rewrite !app_assoc_s. simpl.
    rewrite parse_headers_step, getline_line by done. simpl.
    rewrite bool_decide_eq_false_2 by done.
    rewrite Hl, header_line_split, strip_cr_CR by apply Hkv. simpl.
    apply IH.
Qed.

End header_section.

(** C5: a request whose header section is [N] well-formed lines
    [Key: Value] is parsed into a request whose headers mapping has as
    many entries as there are distinct keys ([N] when no key is
    repeated), and a key met on several lines is mapped to the value of
    the last of them. *)
Theorem parseRequest_headers (request_line : string) (kvs : list (string * string))
    (tail : string) :
  Str.mem LF request_line = false →
  Forall well_formed_header kvs →
  tail = "" ∨ (∃ b, tail = CRLF +:+ b) →
  ∃ req,
    parseRequest (request_line +:+ String LF (header_section kvs +:+ tail)) = Ok req
    ∧ size (headers req) = length (remove_dups kvs.*1)
    ∧ (NoDup kvs.*1 → size (headers req) = length kvs)
    ∧ (∀ before k v after,
         kvs = before ++ (k, v) :: after → k ∉ after.*1 →
         headers req !! k = Some v).
Proof.
  intros Hline Hwf Htail.
  destruct (parse_headers_section kvs tail request_line ∅ Hwf Htail)
    as (st' & line' & Hloop).
  rewrite parseRequest_lines, Hloop by done. simpl.
  eexists; split_and!; [done|..]; simpl.
  - apply record_headers_size.
  - intros Hnd.
    rewrite <-size_dom, record_headers_dom, dom_empty_L, (left_id_L ∅ (∪)).
    by rewrite size_list_to_set, length_fmap.
  - intros before k v after -> Hk. by apply record_headers_last.
Qed.

(** A first line with fewer than three words raises nothing by itself:
    the words that are there fill [method], [path], [version] in this
    order, the fields that are missing are empty, and the parser returns
    this request as soon as the header loop returns (at once for a
    request that is its request line alone). *)
Lemma parseRequest_request_line (request : string) :
  (length (String.words (first_line request)) < 3)%nat →
  (∀ i w, String.words (first_line request) !! i = Some w →
          token (first_line request) i = w)
  ∧ (∀ i, (length (String.words (first_line request)) ≤ i)%nat →
          token (first_line request) i = "")
  ∧ parseRequest request =
      (let '(stream, line) := getline (open request) "" in
       '(stream', line', hs) ← parse_headers stream line ∅;
       Ok {| method := token (first_line request) 0;
             path := token (first_line request) 1;
             version := "";
             headers := hs;
             body := parse_body stream' line' "" |})
  ∧ (Str.mem LF request = false →
     parseRequest request =
       Ok {| method := token request 0; path := token request 1;
             version := ""; headers := ∅; body := "" |}).
Proof.
  intros Hshort.
  assert (∀ i, (length (String.words (first_line request)) ≤ i)%nat →
               token (first_line request) i = "") as Hmissing.
  { intros i Hi. unfold token. by rewrite lookup_ge_None_2. }
  split_and!.
  - intros i w Hw. unfold token. by rewrite Hw.
  - done.
  - rewrite parseRequest_tokens. by rewrite (Hmissing 2%nat) by lia.
  - intros Hlf. rewrite parseRequest_one_line by done.
    assert (first_line request = request) as Hfl.
    { unfold first_line. by rewrite split_line_last. }
    rewrite Hfl in *. by rewrite (Hmissing 2%nat) by lia.
Qed.

(** *** Header lines one by one *)

(** The header loop on a stream that starts with a line other than
    ["\r"]. *)
Lemma parse_headers_line (line rest l0 : string) (hs : gmap string string) :
  Str.mem LF line = false → line ≠ CR_str →
  parse_headers (open (line +:+ String LF rest)) l0 hs =
    hs' ← header_line line hs; parse_headers (open rest) line hs'.
Proof.
  intros Hlf Hcr. rewrite parse_headers_step, getline_line by done. simpl.
  by rewrite bool_decide_eq_false_2.
Qed.

(** What the loop does with one line of the header region (after the
    request line, before the first line ["\r"]): a line without colon is
    skipped, and a line with at least one character after its first
    colon is split there: the key is the text before that colon, and
    the value starts two characters after it, whatever the character
    that follows the colon is, and loses one trailing carriage
    return. *)
Lemma parse_headers_splits_at_first_colon (line rest l0 : string)
    (hs : gmap string string) :
  Str.mem LF line = false → line ≠ CR_str →
  (Str.mem COLON line = false →
     parse_headers (open (line +:+ String LF rest)) l0 hs =
       parse_headers (open rest) line hs)
  ∧ (∀ key c value,
       Str.mem COLON key = false →
       line = key +:+ String COLON (String c value) →
       Str.find COLON line = Some (String.length key)
       ∧ header_line line hs = Ok (<[key := strip_cr value]> hs)
       ∧ parse_headers (open (line +:+ String LF rest)) l0 hs =
           parse_headers (open rest) line (<[key := strip_cr value]> hs))
  ∧ (∀ value, strip_cr (value +:+ CR_str) = value)
  ∧ (∀ value, Str.back value ≠ Some CR → strip_cr value = value)
  ∧ parse_headers (open (CR_str +:+ String LF rest)) l0 hs = Ok (open rest, CR_str, hs).
Proof.
  intros Hlf Hcr. split_and!; [| | | |apply parse_headers_blank].
  - intros Hc. by rewrite parse_headers_line, header_line_no_colon.
  - intros key c value Hkey ->. split_and!.
    + by apply find_first.
    + by apply header_line_split.
    + by rewrite parse_headers_line, header_line_split.
  - apply strip_cr_CR.
  - intros value Hb. unfold strip_cr.
    by rewrite (bool_decide_eq_false_2 _ Hb), andb_false_r.
Qed.

(** C6 fails on the code: [substr(colon + 2)] does not look at the
    character it steps over. On the request
    [GET / HTTP/1.1\r\nHost:example.com\r\n\r\n], where no space
    follows the colon, the value recorded for [Host] is [xample.com]:
    the first character of the text after the colon is lost. With the
    space the value is whole. *)
Theorem parseRequest_drops_character_after_colon :
  parseRequest ("GET / HTTP/1.1" +:+ CRLF +:+ "Host:example.com" +:+ CRLF +:+ CRLF)
    = Ok {| method := "GET"; path := "/"; version := "HTTP/1.1";
            headers := {[ "Host" := "xample.com" ]}; body := "" |}
  ∧ parseRequest ("GET / HTTP/1.1" +:+ CRLF +:+ "Host: example.com" +:+ CRLF +:+ CRLF)
    = Ok {| method := "GET"; path := "/"; version := "HTTP/1.1";
            headers := {[ "Host" := "example.com" ]}; body := "" |}.
Proof. split; by vm_compute. Qed.

(** ** A header line that ends with its colon *)

(** C4 fails on the code: a header line whose first colon is its last
    character makes the parser throw [std::out_of_range]; here on the
    request [GET / HTTP/1.1\r\nHost:\n\r\n]. *)
Theorem parseRequest_throws_on_bare_colon :
  parseRequest ("GET / HTTP/1.1" +:+ CRLF +:+ "Host:" +:+ String LF "" +:+ CRLF)
  = Throw out_of_range.
Proof. by vm_compute. Qed.

(** C7 fails on the code: the request [GET /\r\nHost:] has a first
    line of two words, and the parser raises on it (the first line is
    read without harm, the exception is the one of the header line, as
    for C4). *)
Theorem parseRequest_short_request_line_throws :
  String.words (first_line ("GET /" +:+ CRLF +:+ "Host:")) = ["GET"; "/"]
  ∧ parseRequest ("GET /" +:+ CRLF +:+ "Host:") = Throw out_of_range.
Proof. split; by vm_compute. Qed.

(** Any header line that ends with its first colon throws, whatever
    comes before and after it. *)
Lemma parse_headers_throws (key rest l0 : string) (hs : gmap string string) :
  Str.mem COLON key = false → Str.mem LF key = false →
  parse_headers (open (key +:+ String COLON (String LF rest))) l0 hs =
    Throw out_of_range.
Proof.
  intros Hc Hlf.
  replace (key +:+ String COLON (String LF rest))
    with ((key +:+ String COLON "") +:+ String LF rest) by by rewrite app_assoc_s.
  rewrite parse_headers_line, header_line_throw; [done..| |].
  - by rewrite mem_app, Hlf.
  - intros Heq. apply (f_equal (Str.mem COLON)) in Heq.
    rewrite mem_app in Heq. simpl in Heq. by rewrite orb_true_r in Heq.
Qed.

(** *** Requests on which the parser returns *)

Lemma split_line_shorter (s l rest : string) :
  split_line s = (l, Some rest) → (String.length rest < String.length s)%nat.
Proof.
  revert l rest. induction s as [|a s IH]; intros l rest; simpl; [done|].
  destruct (Ascii.eqb a LF); [intros [= _ <-]; lia|].
  destruct (split_line s) as [l0 r0]. intros [= _ ->].
  specialize (IH _ _ eq_refl). lia.
Qed.

Lemma getline_open (s line : string) :
  getline (open s) line =
    match split_line s with
    | (l, Some rest) => (open rest, l)
    | (l, None) => ({| buf := ""; eofbit := true; failbit := Str.empty l |}, l)
    end.
Proof. reflexivity. Qed.

Lemma header_line_returns (line : string) (hs : gmap string string) :
  bare_colon line = false → ∃ hs', header_line line hs = Ok hs'.
Proof.
  unfold bare_colon, header_line, substr.
  destruct (Str.find COLON line) as [colon|]; [|eauto].
  intros Hlen%Nat.ltb_ge. simpl.
  rewrite (proj2 (Nat.leb_le _ _)) by done. simpl. eauto.
Qed.

(** The header loop returns when none of the lines it is given ends
    with its first colon; by induction on what is left to read. *)
Lemma parse_headers_returns (rest l0 : string) (hs : gmap string string) :
  (∀ l, line_of l rest → bare_colon l = false) →
  ∃ res, parse_headers (open rest) l0 hs = Ok res.
Proof.
  remember (String.length rest) as n eqn:Hn.
  revert rest l0 hs Hn. induction (lt_wf n) as [n _ IH].
  intros rest l0 hs -> Hsafe.
  rewrite parse_headers_step, getline_open.
  destruct (split_line rest) as [l [rest'|]] eqn:Hsplit; simpl.
  - case_bool_decide; [eauto|].
    destruct (header_line_returns l hs) as [hs' ->].
    { apply Hsafe, line_first; [by intros ->|by rewrite Hsplit]. }
    simpl. eapply IH; [by eapply split_line_shorter|done|].
    intros l' Hl'. by eapply Hsafe, line_later.
  - destruct l as [|a l]; simpl; [eauto|].
    case_bool_decide; [eauto|].
    destruct (header_line_returns (String a l) hs) as [hs' ->].
    { apply Hsafe, line_first; [by intros ->|by rewrite Hsplit]. }
    simpl. rewrite parse_headers_step, getline_not_good by done. simpl. eauto.
Qed.

(** The parser returns a request on every input none of whose lines
    ends with its first colon: the exception of [substr] is the only
    one it can raise. *)
Lemma parseRequest_returns (request : string) :
  (∀ l, line_of l request → bare_colon l = false) →
  ∃ req, parseRequest request = Ok req.
Proof.
  intros Hsafe. rewrite parseRequest_tokens, getline_open.
  destruct (split_line request) as [l [rest|]] eqn:Hsplit.
  - destruct (parse_headers_returns rest l ∅) as [[[st' l'] hs] ->]; [|simpl; eauto].
    intros l' Hl'. by eapply Hsafe, line_later.
  - rewrite parse_headers_step, getline_not_good by done. simpl. eauto.
Qed.

(** ** The response builder *)

Lemma read_decimal_size n : read_size (decimal_size n) = Some n.
Proof.
  unfold read_size, decimal_size. rewrite NilZero.usu.
  - simpl. by rewrite DecimalNat.Unsigned.of_to.
  - rewrite <-(DecimalNat.Unsigned.of_to n) at 1.
    rewrite DecimalNat.Unsigned.to_of. apply DecimalFacts.unorm_nonnil.
Qed.

Lemma read_decimal_int z : read_int (decimal_int z) = Some z.
Proof.
  unfold read_int, decimal_int.
  assert (Z.to_int z = Decimal.norm (Z.to_int z)) as Hn.
  { rewrite <-(DecimalZ.of_to z) at 1. apply DecimalZ.to_of. }
  rewrite NilZero.isi.
  - simpl. by rewrite DecimalZ.of_to.
  - rewrite Hn. destruct (Z.to_int z) as [d|d]; simpl.
    + intros [= H]. by apply DecimalFacts.unorm_nonnil in H.
    + by destruct (Decimal.nzhead d).
  - rewrite Hn. destruct (Z.to_int z) as [d|d]; simpl; [done|].
    by destruct (Decimal.nzhead d).
Qed.

Lemma createResponse_text code msg content ctype :
  createResponse code msg content ctype =
    response_text (decimal_int code) msg ctype
      (decimal_size (String.length content)) content.
Proof.
  unfold createResponse, response_text, put_str, put_int, put_size.
  by rewrite !app_assoc_s.
Qed.

(** C3: for every status code, status message, body and content type,
    [createResponse] returns exactly the status line
    [HTTP/1.1 <code> <message>\r\n], the [Content-Type] header, the
    [Content-Length] header, [Connection: close], each ended by [\r\n],
    a blank [\r\n] and then the body with nothing after it; the value
    of [Content-Length] is the decimal text of the length of the body,
    which reads back as that length (and likewise for the code). *)
Theorem createResponse_layout (status_code : Z) (status_msg content content_type : string) :
  createResponse status_code status_msg content content_type =
    "HTTP/1.1 " +:+ decimal_int status_code +:+ " " +:+ status_msg +:+ CRLF +:+
    "Content-Type: " +:+ content_type +:+ CRLF +:+
    "Content-Length: " +:+ decimal_size (String.length content) +:+ CRLF +:+
    "Connection: close" +:+ CRLF +:+
    CRLF +:+
    content
  ∧ read_int (decimal_int status_code) = Some status_code
  ∧ read_size (decimal_size (String.length content)) = Some (String.length content).
Proof.
  split_and!.
  - apply createResponse_text.
  - apply read_decimal_int.
  - apply read_decimal_size.
Qed.

(** ** The connection handler *)

Section handler.
Implicit Types (srv : HTTPServer) (sock : Z) (r : recv_result).

(** The response to a request. *)
Lemma handleClient_request srv sock r :
  0 < bytes_received r →
  handleClient srv sock r =
    match parseRequest (request_str r) with
    | Ok request =>
        IO [Send sock
              match routes srv !! path request with
              | Some h => createResponse 200 "OK" (h (headers request)) "text/html"
              | None =>
                  createResponse 404 "Not Found" (not_found_page (path request))
                    "text/html"
              end;
            Close sock] (Ok tt)
    | Throw e => IO [] (Throw e)
    end.
Proof.
  intros Hn%Z.ltb_lt. unfold handleClient. rewrite Hn.
  destruct (parseRequest (request_str r)) as [req|e]; [|reflexivity].
  unfold lift, mbind, io_bind. cbn [outcome events].
  destruct (routes srv !! path req); reflexivity.
Qed.

Lemma handleClient_no_data srv sock r :
  bytes_received r ≤ 0 → handleClient srv sock r = IO [Close sock] (Ok tt).
Proof.
  intros Hn. unfold handleClient.
  by rewrite (proj2 (Z.ltb_ge _ _)).
Qed.

(** The handler is left in one of two ways: it returns after one of
    the three branches, or the exception of the parser goes through it
    before any call on the socket. *)
Lemma handleClient_outcomes srv sock r :
  (∃ b, takes_branch srv r b ∧ outcome (handleClient srv sock r) = Ok tt)
  ∨ (∃ e, 0 < bytes_received r ∧ parseRequest (request_str r) = Throw e
        ∧ handleClient srv sock r = IO [] (Throw e)).
Proof.
  destruct (Z.le_gt_cases (bytes_received r) 0) as [Hn|Hn].
  { left. exists empty_read. by rewrite handleClient_no_data. }
  rewrite handleClient_request by done.
  destruct (parseRequest (request_str r)) as [req|e] eqn:Hreq; [left|right; eauto].
  destruct (routes srv !! path req) as [h|] eqn:Hh.
  - exists matched_route. simpl. rewrite Hreq. split; [|done].
    split; [done|]. exists req. by rewrite Hh.
  - exists not_found. simpl. rewrite Hreq. split; [|done].
    split; [done|]. by exists req.
Qed.

End handler.

(** C1: when the path [P] of the parsed request is registered with
    handler [H], the handler of the connection sends one response (and
    then closes): status code 200, status message [OK], content type
    [text/html], and the body is [H] applied to the parsed headers. *)
Theorem handleClient_registered (srv : HTTPServer) (sock : Z) (r : recv_result)
    (req : HTTPRequest) (H : handler) :
  0 < bytes_received r →
  parseRequest (request_str r) = Ok req →
  routes srv !! path req = Some H →
  ∃ response,
    handleClient srv sock r = IO [Send sock response; Close sock] (Ok tt)
    ∧ response = createResponse 200 "OK" (H (headers req)) "text/html"
    ∧ response =
        "HTTP/1.1 200 OK" +:+ CRLF +:+
        "Content-Type: text/html" +:+ CRLF +:+
        "Content-Length: " +:+ decimal_size (String.length (H (headers req))) +:+ CRLF +:+
        "Connection: close" +:+ CRLF +:+ CRLF +:+
        H (headers req).
Proof.
  intros Hn Hreq HH. eexists. split_and!; [|done|].
  - rewrite handleClient_request, Hreq by done. by rewrite HH.
  - by rewrite createResponse_text.
Qed.

(** C2: when the path [P] of the parsed request is not registered, the
    handler of the connection sends one response (and then closes):
    status code 404, status message [Not Found], and a body that is a
    fixed text around [P] itself, copied as it is. *)
Theorem handleClient_unregistered (srv : HTTPServer) (sock : Z) (r : recv_result)
    (req : HTTPRequest) :
  0 < bytes_received r →
  parseRequest (request_str r) = Ok req →
  routes srv !! path req = None →
  ∃ response content,
    handleClient srv sock r = IO [Send sock response; Close sock] (Ok tt)
    ∧ response = createResponse 404 "Not Found" content "text/html"
    ∧ response =
        "HTTP/1.1 404 Not Found" +:+ CRLF +:+
        "Content-Type: text/html" +:+ CRLF +:+
        "Content-Length: " +:+ decimal_size (String.length content) +:+ CRLF +:+
        "Connection: close" +:+ CRLF +:+ CRLF +:+
        content
    ∧ content =
        "<!DOCTYPE html><html><head><title>404 Not Found</title></head><body><h1>404 Not Found</h1><p>The requested URL "
        +:+ path req +:+
        " was not found on this server.</p></body></html>"
    ∧ Str.contains (path req) content.
Proof.
  intros Hn Hreq HH. eexists _, _. split_and!; [|done| |done|].
  - rewrite handleClient_request, Hreq by done. by rewrite HH.
  - by rewrite createResponse_text.
  - by eexists _, _.
Qed.

(** *** Registration and lookup *)

(** C8: registration and lookup go by equality of the whole path
    string, as the handler of a connection sees it. Registering a path
    again overwrites its handler: [h1] then [h2] gives the server that
    [h2] alone gives, and a request for the path is answered by [h2].
    The lookup takes the path of the request as it is: a request whose
    path differs from the registered one, by a trailing slash or in
    any other way, is handled as if the registration had not been
    made, and is answered 404 when its own path is not registered;
    [/about] and [/about/] do not see each other. *)
Theorem addRoute_exact_path (srv : HTTPServer) (p : string) (h1 h2 : handler)
    (sock : Z) (r : recv_result) (req : HTTPRequest) :
  0 < bytes_received r →
  parseRequest (request_str r) = Ok req →
  addRoute p h2 (addRoute p h1 srv) = addRoute p h2 srv
  ∧ (path req = p →
       handleClient (addRoute p h2 (addRoute p h1 srv)) sock r =
         IO [Send sock (createResponse 200 "OK" (h2 (headers req)) "text/html");
             Close sock] (Ok tt))
  ∧ (path req ≠ p →
       handleClient (addRoute p h1 srv) sock r = handleClient srv sock r)
  ∧ (path req ≠ p → routes srv !! path req = None →
       handleClient (addRoute p h1 srv) sock r =
         IO [Send sock
               (createResponse 404 "Not Found" (not_found_page (path req)) "text/html");
             Close sock] (Ok tt))
  ∧ (p = "/about" → path req = "/about/" →
       handleClient (addRoute p h1 srv) sock r = handleClient srv sock r)
  ∧ (p = "/about/" → path req = "/about" →
       handleClient (addRoute p h1 srv) sock r = handleClient srv sock r).
Proof.
  intros Hn Hreq.
  assert (∀ q, q ≠ p →
            routes (addRoute p h1 srv) !! q = routes srv !! q) as Hother.
  { intros q Hq. unfold addRoute; simpl. by rewrite lookup_insert_ne. }
  assert (path req ≠ p →
            handleClient (addRoute p h1 srv) sock r = handleClient srv sock r) as Hsame.
  { intros Hq. rewrite !handleClient_request, Hreq by done. by rewrite Hother. }
  split_and!.
  - unfold addRoute; simpl. by rewrite insert_insert_eq.
  - intros <-. rewrite handleClient_request, Hreq by done.
    unfold addRoute; simpl. by rewrite lookup_insert_eq.
  - exact Hsame.
  - intros Hq Hnone. rewrite Hsame, handleClient_request, Hreq by done.
    by rewrite Hnone.
  - intros -> Hq. apply Hsame. by rewrite Hq.
  - intros -> Hq. apply Hsame. by rewrite Hq.
Qed.

(** When the read returns zero or a negative count the handler sends
    nothing and still closes the socket; and on each of the three
    branches (empty read, matched route, 404) the handler returns after
    closing the socket of the connection exactly once, as its last
    action. *)
Lemma handleClient_branch_closes_once (srv : HTTPServer) (sock : Z) (r : recv_result)
    (b : branch) :
  takes_branch srv r b →
  ∃ tr,
    handleClient srv sock r = IO tr (Ok tt)
    ∧ closed tr = [sock]
    ∧ last tr = Some (Close sock)
    ∧ (bytes_received r ≤ 0 → tr = [Close sock] ∧ sent tr = []).
Proof.
  destruct b; simpl.
  - intros Hn. exists [Close sock]. by rewrite handleClient_no_data.
  - intros (Hn & req & Hreq & _).
    rewrite handleClient_request, Hreq by done.
    eexists; split_and!; [done..|lia].
  - intros (Hn & req & Hreq & _).
    rewrite handleClient_request, Hreq by done.
    eexists; split_and!; [done..|lia].
Qed.

(** On a request none of whose lines ends with its first colon the
    handler returns, and has closed the socket once. *)
Lemma handleClient_returns (srv : HTTPServer) (sock : Z) (r : recv_result) :
  (∀ l, line_of l (request_str r) → bare_colon l = false) →
  ∃ tr,
    handleClient srv sock r = IO tr (Ok tt)
    ∧ closed tr = [sock]
    ∧ last tr = Some (Close sock).
Proof.
  intros Hsafe.
  destruct (handleClient_outcomes srv sock r) as [(b & Hb & _)|(e & _ & He & _)].
  - destruct (handleClient_branch_closes_once srv sock r b Hb) as (tr & ? & ? & ? & _).
    eauto.
  - destruct (parseRequest_returns _ Hsafe) as [req Hreq]. congruence.
Qed.

(** C9 fails on the code: on a connection whose read returns the 21
    bytes [GET / HTTP/1.1\r\nHost:] the exception of the parser (the
    one of C4) leaves [handleClient] before [send] and before
    [closeSocket]: the socket is not closed. *)
Theorem handleClient_leaves_socket_open :
  handleClient demo_server 7 (demo_recv ("GET / HTTP/1.1" +:+ CRLF +:+ "Host:"))
  = IO [] (Throw out_of_range).
Proof. by vm_compute. Qed.

(** *** The buffer as a C string *)

Lemma of_c_str_NUL (pre rest : string) (n : nat) :
  Str.mem NUL pre = false →
  (String.length pre < n)%nat →
  Str.of_c_str (Str.set n NUL (pre +:+ String NUL rest)) = pre.
Proof.
  revert n. induction pre as [|a pre IH]; intros n; simpl.
  - intros _ Hn. destruct n; [lia|done].
  - intros [Ha Hpre]%orb_false_iff Hn. destruct n as [|n]; [lia|].
    simpl. unfold NUL in Ha. rewrite Ha, IH; [done..|lia].
Qed.

(** Without a NUL among the bytes read, the request text is all of
    them. *)
Lemma of_c_str_all (buffer : string) (n : nat) :
  Str.mem NUL (Str.take n buffer) = false →
  (n < String.length buffer)%nat →
  Str.of_c_str (Str.set n NUL buffer) = Str.take n buffer.
Proof.
  revert n. induction buffer as [|a s IH]; intros n; simpl; [lia|].
  destruct n as [|n]; simpl; [done|].
  intros [Ha Hs]%orb_false_iff Hn. unfold NUL in Ha. rewrite Ha, IH; [done..|lia].
Qed.

Lemma request_str_all (r : recv_result) :
  recv_ok r → 0 < bytes_received r →
  Str.mem NUL (Str.take (Z.to_nat (bytes_received r)) (buffer r)) = false →
  request_str r = Str.take (Z.to_nat (bytes_received r)) (buffer r).
Proof.
  intros [Hn Hlen] Hpos Hnul. unfold request_str.
  apply of_c_str_all; [done|]. rewrite Hlen. unfold BUFFER_SIZE in *. lia.
Qed.

(** C10: when a NUL byte is among the bytes read, the text handed to
    the parser is what stands before the first NUL; the bytes after it
    have no part in what the handler does. *)
Theorem handleClient_stops_at_NUL (srv : HTTPServer) (sock : Z) (r : recv_result)
    (pre rest : string) :
  Str.mem NUL pre = false →
  buffer r = pre +:+ String NUL rest →
  Z.of_nat (String.length pre) < bytes_received r →
  request_str r = pre
  ∧ handleClient srv sock r =
      match parseRequest pre with
      | Ok request =>
          IO [Send sock
                match routes srv !! path request with
                | Some h => createResponse 200 "OK" (h (headers request)) "text/html"
                | None =>
                    createResponse 404 "Not Found" (not_found_page (path request))
                      "text/html"
                end;
              Close sock] (Ok tt)
      | Throw e => IO [] (Throw e)
      end
  ∧ ∀ n' rest',
      Z.of_nat (String.length pre) < n' →
      handleClient srv sock {| bytes_received := n'; buffer := pre +:+ String NUL rest' |}
      = handleClient srv sock r.
Proof.
  intros Hpre Hbuf Hn.
  assert (request_str r = pre) as Hr.
  { unfold request_str. rewrite Hbuf. apply of_c_str_NUL; [done|lia]. }
  split_and!; [done| |].
  - rewrite handleClient_request by lia. by rewrite Hr.
  - intros n' rest' Hn'. rewrite !handleClient_request by (simpl; lia).
    rewrite Hr. unfold request_str; simpl. by rewrite of_c_str_NUL by (done || lia).
Qed.

(** ** The theorems on an example *)

Lemma handleClient_registered_witness :
  ∃ response,
    handleClient demo_server 7 (demo_recv demo_request)
      = IO [Send 7 response; Close 7] (Ok tt)
    ∧ response = createResponse 200 "OK" "hello" "text/html"
    ∧ response =
        "HTTP/1.1 200 OK" +:+ CRLF +:+
        "Content-Type: text/html" +:+ CRLF +:+
        "Content-Length: " +:+ decimal_size (String.length "hello") +:+ CRLF +:+
        "Connection: close" +:+ CRLF +:+ CRLF +:+
        "hello".
Proof.
  apply (handleClient_registered demo_server 7 (demo_recv demo_request)
           {| method := "GET"; path := "/"; version := "HTTP/1.1";
              headers := {[ "Host" := "x" ]}; body := "" |} (λ _, "hello")).
  - vm_compute. reflexivity.
  - vm_compute. reflexivity.
  - vm_compute. reflexivity.
Defined.

Lemma handleClient_unregistered_witness :
  ∃ response content,
    handleClient demo_server 7 (demo_recv demo_missing)
      = IO [Send 7 response; Close 7] (Ok tt)
    ∧ response = createResponse 404 "Not Found" content "text/html"
    ∧ response =
        "HTTP/1.1 404 Not Found" +:+ CRLF +:+
        "Content-Type: text/html" +:+ CRLF +:+
        "Content-Length: " +:+ decimal_size (String.length content) +:+ CRLF +:+
        "Connection: close" +:+ CRLF +:+ CRLF +:+
        content
    ∧ content =
        "<!DOCTYPE html><html><head><title>404 Not Found</title></head><body><h1>404 Not Found</h1><p>The requested URL "
        +:+ "/missing" +:+
        " was not found on this server.</p></body></html>"
    ∧ Str.contains "/missing" content.
Proof.
  apply (handleClient_unregistered demo_server 7 (demo_recv demo_missing)
           {| method := "GET"; path := "/missing"; version := "HTTP/1.1";
              headers := ∅; body := "" |}).
  - vm_compute. reflexivity.
  - vm_compute. reflexivity.
  - vm_compute. reflexivity.
Defined.

Lemma parseRequest_headers_witness :
  ∃ req,
    parseRequest
      ("GET / HTTP/1.1" +:+ CR_str +:+ String LF
         (header_section [("Host", "x"); ("Accept", "a"); ("Host", "y")] +:+ CRLF +:+ "body"))
      = Ok req
    ∧ size (headers req) = 2%nat
    ∧ headers req !! "Host" = Some "y".
Proof.
  destruct (parseRequest_headers ("GET / HTTP/1.1" +:+ CR_str)
              [("Host", "x"); ("Accept", "a"); ("Host", "y")] (CRLF +:+ "body"))
    as (req & Hreq & Hsize & _ & Hlast).
  - reflexivity.
  - repeat constructor.
  - right. exists "body". reflexivity.
  - exists req. split_and!; [exact Hreq|exact Hsize|].
    apply (Hlast [("Host", "x"); ("Accept", "a")] "Host" "y" []); [reflexivity|].
    simpl. apply not_elem_of_nil.
Defined.

Lemma parseRequest_request_line_example :
  parseRequest "GET /" =
    Ok {| method := "GET"; path := "/"; version := ""; headers := ∅; body := "" |}.
Proof.
  destruct (parseRequest_request_line "GET /") as (_ & _ & _ & Hparse).
  - vm_compute. lia.
  - apply Hparse. reflexivity.
Qed.

Lemma addRoute_exact_path_witness :
  handleClient (addRoute "/about" (λ _, "about") demo_server) 7
    (demo_recv ("GET /about/ HTTP/1.1" +:+ CRLF +:+ CRLF))
  = IO [Send 7 (createResponse 404 "Not Found" (not_found_page "/about/") "text/html");
        Close 7] (Ok tt).
Proof.
  destruct (addRoute_exact_path demo_server "/about" (λ _, "about") (λ _, "about") 7
              (demo_recv ("GET /about/ HTTP/1.1" +:+ CRLF +:+ CRLF))
              {| method := "GET"; path := "/about/"; version := "HTTP/1.1";
                 headers := ∅; body := "" |})
    as (_ & _ & _ & Hmissing & _).
  - vm_compute. reflexivity.
  - vm_compute. reflexivity.
  - apply Hmissing.
    + discriminate.
    + reflexivity.
Defined.

Lemma handleClient_branch_closes_once_example :
  ∃ tr,
    handleClient demo_server 7 (demo_recv demo_missing) = IO tr (Ok tt)
    ∧ closed tr = [7]
    ∧ last tr = Some (Close 7).
Proof.
  destruct (handleClient_branch_closes_once demo_server 7 (demo_recv demo_missing) not_found)
    as (tr & Htr & Hclosed & Hlast & _).
  - split; [vm_compute; reflexivity|].
    exists {| method := "GET"; path := "/missing"; version := "HTTP/1.1";
              headers := ∅; body := "" |}.
    split; vm_compute; reflexivity.
  - exists tr. split_and!; assumption.
Qed.

Lemma handleClient_stops_at_NUL_witness :
  request_str
    {| bytes_received := 30; buffer := demo_missing +:+ String NUL "X: y" |}
  = demo_missing.
Proof.
  apply (handleClient_stops_at_NUL demo_server 7
           {| bytes_received := 30; buffer := demo_missing +:+ String NUL "X: y" |}
           demo_missing "X: y").
  - reflexivity.
  - reflexivity.
  - vm_compute. reflexivity.
Defined.

Lemma parse_headers_splits_at_first_colon_example :
  parse_headers (open (("Host: x" +:+ CR_str) +:+ String LF CRLF)) "" ∅ =
    parse_headers (open CRLF) ("Host: x" +:+ CR_str) {[ "Host" := "x" ]}.
Proof.
  destruct (parse_headers_splits_at_first_colon ("Host: x" +:+ CR_str) CRLF "" ∅)
    as (_ & Hsplit & _).
  - reflexivity.
  - discriminate.
  - destruct (Hsplit "Host" " "%char ("x" +:+ CR_str)) as (_ & _ & Hloop).
    + reflexivity.
    + reflexivity.
    + rewrite Hloop. reflexivity.
Qed.


(** * Further properties of the parser *)

Section body.
Implicit Types (s b l line : string) (os : ostringstream).

Lemma app_nil_r_s s : s +:+ "" = s.
Proof. induction s as [|a s IH]; simpl; [done|by rewrite IH]. Qed.

Lemma split_line_Some s l rest :
  split_line s = (l, Some rest) → s = l +:+ String LF rest ∧ Str.mem LF l = false.
Proof.
  revert l rest. induction s as [|a s IH]; intros l rest; simpl; [done|].
  destruct (Ascii.eqb_spec a LF) as [->|Hne].
  - by intros [= <- <-].
  - destruct (split_line s) as [l0 r0]. intros [= <- ->].
    destruct (IH _ _ eq_refl) as [-> Hl0]. simpl.
    split; [done|]. by rewrite Hl0, (proj2 (Ascii.eqb_neq _ _) Hne).
Qed.

Lemma split_line_None s l :
  split_line s = (l, None) → s = l ∧ Str.mem LF l = false.
Proof.
  revert l. induction s as [|a s IH]; intros l; simpl; [by intros [= <-]|].
  destruct (Ascii.eqb_spec a LF) as [->|Hne]; [done|].
  destruct (split_line s) as [l0 [r0|]]; intros [= <-].
  destruct (IH _ eq_refl) as [-> Hl0]. simpl.
  split; [done|]. by rewrite Hl0, (proj2 (Ascii.eqb_neq _ _) Hne).
Qed.

(** On a stream that has reached its end or failed, the body loop adds
    nothing. *)
Lemma parse_body_not_good st line os :
  good st = false → parse_body st line os = os.
Proof. intros Hg. by rewrite parse_body_step, getline_not_good. Qed.

(** The body loop puts back the line feeds [getline] took away. *)
Lemma parse_body_open b line os :
  parse_body (open b) line os = os +:+ b.
Proof.
  remember (String.length b) as n eqn:Hn.
  revert b line os Hn. induction (lt_wf n) as [n _ IH]. intros b line os ->.
  rewrite parse_body_step, getline_open.
  destruct (split_line b) as [l [rest|]] eqn:Hsplit.
  - pose proof (split_line_shorter _ _ _ Hsplit) as Hlen.
    pose proof (split_line_Some _ _ _ Hsplit) as [Hb _]. simpl.
    erewrite IH; [|exact Hlen|done].
    unfold put_str. by rewrite Hb, !app_assoc_s.
  - pose proof (split_line_None _ _ Hsplit) as [-> _].
    destruct l as [|a l]; simpl; [by rewrite app_nil_r_s|].
    by rewrite parse_body_not_good.
Qed.

End body.



Section header_region.
Implicit Types (l line b : string) (ls : list string) (hs : gmap string string).

Lemma lines_text_cons l ls : lines_text (l :: ls) = l +:+ String LF (lines_text ls).
Proof. done. Qed.

(** The header loop over any lines up to the blank line: the lines are
    entered one after the other, and the stream is left at the body. *)
Lemma parse_headers_lines ls b l0 hs :
  Forall header_region_line ls →
  parse_headers (open (lines_text ls +:+ CRLF +:+ b)) l0 hs =
    hs' ← record_lines hs ls; Ok (open b, CR_str, hs').
Proof.
  intros Hls. revert l0 hs.
  induction Hls as [|l ls [Hlf Hcr] _ IH]; intros l0 hs.
  - change (lines_text [] +:+ CRLF +:+ b) with (CRLF +:+ b).
    by rewrite parse_headers_blank.
  - rewrite lines_text_cons, app_assoc_s.
    change (String LF (lines_text ls) +:+ CRLF +:+ b)
      with (String LF (lines_text ls +:+ CRLF +:+ b)).
    rewrite parse_headers_line by done. cbn [record_lines].
    destruct (header_line l hs) as [hs'|e]; [exact (IH l hs')|reflexivity].
Qed.

Lemma header_line_bare_colon l hs :
  bare_colon l = true → header_line l hs = Throw out_of_range.
Proof.
  unfold bare_colon, header_line, substr.
  destruct (Str.find COLON l) as [colon|]; [|done].
  intros Hlen%Nat.ltb_lt. simpl.
  by rewrite (proj2 (Nat.leb_gt _ _)) by done.
Qed.

Lemma record_lines_throws ls hs :
  (∃ hs', record_lines hs ls = Ok hs') ∧ Forall (λ l, bare_colon l = false) ls
  ∨ record_lines hs ls = Throw out_of_range ∧ Exists (λ l, bare_colon l = true) ls.
Proof.
  revert hs. induction ls as [|l ls IH]; intros hs; simpl.
  - left. eauto.
  - destruct (bare_colon l) eqn:Hl.
    + right. rewrite header_line_bare_colon by done. split; [done|]. by left.
    + destruct (header_line_returns l hs Hl) as [hs' ->]. simpl.
      destruct (IH hs') as [[? ?]|[? ?]]; [left|right]; split; auto.
Qed.

End header_region.



(** ** What the headers mapping can hold *)

Section invariant.
Implicit Types (s l line : string) (c : ascii) (n : nat) (hs : gmap string string).

Lemma mem_take c n s : Str.mem c s = false → Str.mem c (Str.take n s) = false.
Proof.
  revert n. induction s as [|a s IH]; intros [|n]; simpl; try done.
  intros [-> Hs]%orb_false_iff. by apply IH.
Qed.

Lemma mem_drop c n s : Str.mem c s = false → Str.mem c (Str.drop n s) = false.
Proof.
  revert n. induction s as [|a s IH]; intros [|n]; simpl; try done.
  intros [_ Hs]%orb_false_iff. by apply IH.
Qed.

Lemma mem_pop_back c s : Str.mem c s = false → Str.mem c (Str.pop_back s) = false.
Proof.
  induction s as [|a s IH]; simpl; [done|].
  intros [Ha Hs]%orb_false_iff. destruct s as [|b s]; [done|].
  change (Str.mem c (String a (Str.pop_back (String b s))) = false).
  simpl. rewrite Ha. by apply IH.
Qed.

Lemma mem_strip_cr c s : Str.mem c s = false → Str.mem c (strip_cr s) = false.
Proof. intros Hs. unfold strip_cr. case_match; [by apply mem_pop_back|done]. Qed.

Lemma find_take c s i :
  Str.find c s = Some i → Str.mem c (Str.take i s) = false.
Proof.
  revert i. induction s as [|a s IH]; intros i; simpl; [done|].
  destruct (Ascii.eqb a c) eqn:Ha; [by intros [= <-]|].
  destruct (Str.find c s) as [j|]; intros [= <-]. simpl.
  rewrite Ha. by apply IH.
Qed.

(** One header line keeps the invariant. *)
Lemma header_line_invariant l hs hs' :
  Str.mem LF l = false →
  map_Forall header_entry_ok hs →
  header_line l hs = Ok hs' →
  map_Forall header_entry_ok hs'.
Proof.
  intros Hlf Hhs. unfold header_line, substr.
  destruct (Str.find COLON l) as [colon|] eqn:Hfind; [|by intros [= <-]].
  simpl. destruct (colon + 2 <=? String.length l)%nat; [|done].
  simpl. intros [= <-]. apply map_Forall_insert_2; [|done].
  split_and!.
  - by apply find_take.
  - by apply mem_take.
  - by apply mem_strip_cr, mem_drop.
Qed.

Lemma getline_reads st line st' line' :
  getline st line = (st', line') → to_bool st' = true →
  (String.length (buf st') < String.length (buf st))%nat ∧ Str.mem LF line' = false.
Proof.
  unfold getline, to_bool. destruct (good st); [|intros [= <- _]; done].
  destruct (split_line (buf st)) as [l [rest|]] eqn:E; intros [= <- <-]; simpl.
  - intros _. split; [by eapply split_line_shorter|].
    by destruct (split_line_Some _ _ _ E).
  - destruct (split_line_None _ _ E) as [Hb Hl]. rewrite Hb.
    destruct l; simpl; [done|]. intros _. split; [lia|done].
Qed.

(** The header loop keeps the invariant, whatever the stream holds. *)
Lemma parse_headers_invariant st l0 hs st' l' hs' :
  map_Forall header_entry_ok hs →
  parse_headers st l0 hs = Ok (st', l', hs') →
  map_Forall header_entry_ok hs'.
Proof.
  remember (String.length (buf st)) as n eqn:Hn.
  revert st l0 hs Hn. induction (lt_wf n) as [n _ IH]. intros st l0 hs -> Hhs.
  rewrite parse_headers_step.
  destruct (getline st l0) as [st1 l1] eqn:Hget.
  destruct (to_bool st1) eqn:Hok; [|by intros [= _ _ <-]].
  destruct (getline_reads _ _ _ _ Hget Hok) as [Hlen Hlf].
  case_bool_decide; [by intros [= _ _ <-]|].
  destruct (header_line l1 hs) as [hs1|e] eqn:Hline; [|done]. simpl.
  eapply IH; [exact Hlen|done|].
  by eapply header_line_invariant.
Qed.

End invariant.

(** X4: whatever the input, the headers of a parsed request have keys
    without colon and without line feed, and values without line
    feed. *)
Theorem parseRequest_headers_invariant (request : string) (req : HTTPRequest) :
  parseRequest request = Ok req →
  map_Forall header_entry_ok (headers req).
Proof.
  rewrite parseRequest_tokens.
  destruct (getline (open request) "") as [st l].
  destruct (parse_headers st l ∅) as [[[st' l'] hs]|e] eqn:Hloop; [|done].
  simpl. intros [= <-]. simpl.
  eapply parse_headers_invariant; [|exact Hloop]. apply map_Forall_empty.
Qed.



(** ** The parser on requests with and without a blank line *)

Section whole_request.
Implicit Types (l line b last : string) (ls : list string) (hs : gmap string string).

Lemma record_lines_app ls ls' hs :
  record_lines hs (ls ++ ls') = hs' ← record_lines hs ls; record_lines hs' ls'.
Proof.
  revert hs. induction ls as [|l ls IH]; intros hs; simpl; [done|].
  destruct (header_line l hs) as [hs'|e]; simpl; [apply IH|done].
Qed.

(** The header loop when the text ends before any blank line. *)
Lemma parse_headers_lines_end ls last l0 hs :
  Forall header_region_line ls → Str.mem LF last = false →
  ∃ st' l',
    good st' = false ∧
    parse_headers (open (lines_text ls +:+ last)) l0 hs =
      hs' ← record_lines hs (ls ++ last_lines last); Ok (st', l', hs').
Proof.
  intros Hls Hlast. revert l0 hs.
  induction Hls as [|l ls [Hlf Hcr] _ IH]; intros l0 hs.
  - change (lines_text [] +:+ last) with last. unfold last_lines.
    rewrite parse_headers_step, getline_last by done.
    destruct (bool_decide_reflect (last = "" ∨ last = CR_str)) as [Hl|Hl].
    + destruct Hl as [->| ->]; simpl;
        eexists _, _; (split; [|reflexivity]); reflexivity.
    + destruct last as [|a last]; [by destruct Hl; left|]. simpl.
      rewrite bool_decide_eq_false_2 by (intros ?; apply Hl; by right).
      destruct (header_line (String a last) hs) as [hs'|e]; simpl.
      * rewrite parse_headers_step, getline_not_good by done. simpl.
        eexists _, _; (split; [|reflexivity]); reflexivity.
      * by exists {| buf := ""; eofbit := true; failbit := true |}, "".
  - rewrite lines_text_cons, app_assoc_s.
    change (String LF (lines_text ls) +:+ last)
      with (String LF (lines_text ls +:+ last)).
    rewrite parse_headers_line by done. cbn [app record_lines].
    destruct (header_line l hs) as [hs'|e].
    + destruct (IH l hs') as (st' & l' & Hg & Heq). by exists st', l'.
    + by exists {| buf := ""; eofbit := true; failbit := true |}, "".
Qed.

End whole_request.

Lemma parseRequest_blank_line (l1 : string) (ls : list string) (b : string) :
  Str.mem LF l1 = false →
  Forall header_region_line ls →
  parseRequest (l1 +:+ String LF (lines_text ls +:+ CRLF +:+ b)) =
    hs ← record_lines ∅ ls;
    Ok {| method := token l1 0; path := token l1 1; version := token l1 2;
          headers := hs; body := b |}.
Proof.
  intros Hl1 Hls. rewrite parseRequest_lines, parse_headers_lines by done.
  destruct (record_lines ∅ ls) as [hs|e]; [|done]. simpl.
  by rewrite parse_body_open.
Qed.

(** X1: a request with a blank line: the lines before it are entered
    as headers in order, and the body is what follows it, byte for
    byte; what follows the blank line has no part in the fields, in
    the headers, or in whether the parser throws. *)
Theorem parseRequest_with_blank_line (l1 : string) (ls : list string) (b : string) :
  Str.mem LF l1 = false →
  Forall header_region_line ls →
  parseRequest (l1 +:+ String LF (lines_text ls +:+ CRLF +:+ b)) =
    hs ← record_lines ∅ ls;
    Ok {| method := token l1 0; path := token l1 1; version := token l1 2;
          headers := hs; body := b |}.
Proof.
  intros Hl1 Hls. rewrite parseRequest_lines, parse_headers_lines by done.
  destruct (record_lines ∅ ls) as [hs|e]; [|done]. simpl.
  by rewrite parse_body_open.
Qed.

(** X2: a request without blank line: every line after the first is
    entered as a header (a last line without line feed too), and the
    body is empty. *)
Theorem parseRequest_without_blank_line (l1 : string) (ls : list string) (last : string) :
  Str.mem LF l1 = false →
  Forall header_region_line ls →
  Str.mem LF last = false →
  parseRequest (l1 +:+ String LF (lines_text ls +:+ last)) =
    hs ← record_lines ∅ (ls ++ last_lines last);
    Ok {| method := token l1 0; path := token l1 1; version := token l1 2;
          headers := hs; body := "" |}.
Proof.
  intros Hl1 Hls Hlast. rewrite parseRequest_lines by done.
  destruct (parse_headers_lines_end ls last l1 ∅ Hls Hlast) as (st' & l' & Hg & ->).
  destruct (record_lines ∅ (ls ++ last_lines last)) as [hs|e]; [|done]. simpl.
  by rewrite parse_body_not_good.
Qed.

(** X3: on a request with a blank line, the parser throws exactly when
    a line of the header region - a line after the request line [l1]
    and before the blank line - ends with its first colon. The request
    line has no part in it, whatever it holds. *)
Theorem parseRequest_throws_iff (l1 : string) (ls : list string) (b : string) :
  Str.mem LF l1 = false →
  Forall header_region_line ls →
  (parseRequest (l1 +:+ String LF (lines_text ls +:+ CRLF +:+ b)) = Throw out_of_range
     ↔ Exists (λ l, bare_colon l = true) ls)
  ∧ ((∃ req, parseRequest (l1 +:+ String LF (lines_text ls +:+ CRLF +:+ b)) = Ok req)
     ↔ Forall (λ l, bare_colon l = false) ls).
Proof.
  intros Hl1 Hls. rewrite parseRequest_blank_line by done.
  destruct (record_lines_throws ls ∅) as [[[hs ->] Hall]|[-> Hex]]; simpl.
  - split; split; try done; [|eauto].
    intros Hex. apply Exists_exists in Hex as (l & Hl & Hb).
    rewrite Forall_forall in Hall. by rewrite (Hall l Hl) in Hb.
  - split; split; try done; [by intros [? ?]|].
    intros Hall. apply Exists_exists in Hex as (l & Hl & Hb).
    rewrite Forall_forall in Hall. by rewrite (Hall l Hl) in Hb.
Qed.



Section fields.
Implicit Types (s w r : string).

Lemma span_word_spec s :
  spaceless (span_word s).1 = true
  ∧ (String.length (span_word s).2 ≤ String.length s)%nat.
Proof.
  induction s as [|a s [IH1 IH2]]; simpl; [done|].
  destruct (Ascii.is_space a) eqn:Ha; simpl; [split; [done|lia]|].
  destruct (span_word s) as [w r]; simpl in *. rewrite Ha, IH1. split; [done|lia].
Qed.

Lemma skip_ws_spec s :
  (String.length (skip_ws s) ≤ String.length s)%nat
  ∧ match skip_ws s with
    | "" => True
    | String a _ => Ascii.is_space a = false
    end.
Proof.
  induction s as [|a s [IH1 IH2]]; simpl; [done|].
  destruct (Ascii.is_space a) eqn:Ha; simpl; [split; [lia|done]|].
  split; [lia|done].
Qed.

(** Every word [String.words] returns is a word. *)
Lemma words_are_words s : Forall word (String.words s).
Proof.
  unfold String.words.
  remember (String.length s) as n eqn:Hn.
  revert s Hn. induction (lt_wf n) as [n _ IH]. intros s ->.
  rewrite words_go_None.
  destruct (skip_ws_spec s) as [Hlen Hfirst].
  destruct (skip_ws s) as [|a s1] eqn:Hskip; [done|].
  pose proof (span_word_spec (String a s1)) as [Hw Hr].
  destruct (span_word (String a s1)) as [w r] eqn:Hspan. simpl in Hw, Hr.
  constructor.
  - split; [|done]. simpl in Hspan. rewrite Hfirst in Hspan.
    destruct (span_word s1); by injection Hspan as <- _.
  - eapply IH; [|done]. simpl in Hspan. rewrite Hfirst in Hspan.
    pose proof (span_word_spec s1) as [_ Hr1].
    destruct (span_word s1) as [w1 r1]; injection Hspan as _ <-.
    simpl in *. lia.
Qed.

Lemma token_spaceless s i : spaceless (token s i) = true.
Proof.
  unfold token. destruct (String.words s !! i) as [w|] eqn:Hw; [|done]. simpl.
  pose proof (words_are_words s) as Hall.
  rewrite Forall_forall in Hall. apply Hall. by eapply list_elem_of_lookup_2.
Qed.

End fields.

(** X5: whatever the input, the method, the path and the version of a
    parsed request are the first three words of its first line (empty
    when the line has fewer), and hold no white space: no space, tab,
    carriage return or line feed. *)
Theorem parseRequest_fields (request : string) (req : HTTPRequest) :
  parseRequest request = Ok req →
  method req = default "" (String.words (first_line request) !! 0%nat)
  ∧ path req = default "" (String.words (first_line request) !! 1%nat)
  ∧ version req = default "" (String.words (first_line request) !! 2%nat)
  ∧ spaceless (method req) = true
  ∧ spaceless (path req) = true
  ∧ spaceless (version req) = true.
Proof.
  rewrite parseRequest_tokens.
  destruct (getline (open request) "") as [st l].
  destruct (parse_headers st l ∅) as [[[st' l'] hs]|e]; [|done].
  simpl. intros [= <-]. simpl.
  split_and!; try done; apply token_spaceless.
Qed.



(** ** Well-formed requests, and the responses of the builder *)

Section words.
Implicit Types (w s rest : string) (c : ascii).

Lemma span_word_spaceless w c rest :
  spaceless w = true → Ascii.is_space c = true →
  span_word (w +:+ String c rest) = (w, String c rest).
Proof.
  intros Hw Hc. induction w as [|a w IH]; simpl in *.
  - by rewrite Hc.
  - apply andb_true_iff in Hw as [Ha Hw]. apply negb_true_iff in Ha.
    by rewrite Ha, IH.
Qed.

Lemma span_word_all w : spaceless w = true → span_word w = (w, "").
Proof.
  intros Hw. induction w as [|a w IH]; simpl in *; [done|].
  apply andb_true_iff in Hw as [Ha Hw]. apply negb_true_iff in Ha.
  by rewrite Ha, IH.
Qed.

Lemma words_space c rest :
  Ascii.is_space c = true → String.words (String c rest) = String.words rest.
Proof. intros Hc. unfold String.words. simpl. by rewrite Hc. Qed.

Lemma words_word_cons w c rest :
  word w → Ascii.is_space c = true →
  String.words (w +:+ String c rest) = w :: String.words rest.
Proof.
  intros [Hne Hw] Hc. unfold String.words. rewrite words_go_None.
  destruct w as [|a w]; [done|]. simpl in Hw.
  apply andb_true_iff in Hw as [Ha Hw]. apply negb_true_iff in Ha.
  change (String a w +:+ String c rest) with (String a (w +:+ String c rest)).
  cbn [skip_ws]. rewrite Ha. cbn [span_word]. rewrite Ha.
  rewrite span_word_spaceless by done.
  f_equal. by apply words_space.
Qed.

Lemma spaceless_mem_LF w : spaceless w = true → Str.mem LF w = false.
Proof.
  induction w as [|a w IH]; simpl; [done|].
  intros [Ha Hw]%andb_true_iff. rewrite IH by done.
  destruct (Ascii.eqb_spec a LF) as [->|]; [done|done].
Qed.

(** The three tokens of a request line [M P V], however it goes on
    after white space. *)
Lemma request_line_tokens m p v c rest :
  word m → word p → word v → Ascii.is_space c = true →
  String.words (m +:+ " " +:+ p +:+ " " +:+ v +:+ String c rest)
    = m :: p :: v :: String.words rest.
Proof.
  intros Hm Hp Hv Hc.
  change (m +:+ " " +:+ p +:+ " " +:+ v +:+ String c rest)
    with (m +:+ String " " (p +:+ String " " (v +:+ String c rest))).
  by rewrite !words_word_cons.
Qed.

End words.

Section sections.
Implicit Types (kvs : list (string * string)) (hs : gmap string string).

Lemma header_section_lines kvs :
  header_section kvs = lines_text (header_line_text <$> kvs).
Proof.
  induction kvs as [|[k v] kvs IH]; [done|].
  cbn [header_section fmap list_fmap]. rewrite lines_text_cons, <-IH.
  unfold header_text, header_line_text, CRLF, CR_str. simpl.
  by repeat (rewrite app_assoc_s; simpl).
Qed.

Lemma header_line_text_region kv :
  well_formed_header kv → header_region_line (header_line_text kv).
Proof.
  intros Hkv. destruct (header_text_line kv Hkv) as (l & _ & -> & Hlf & Hcr).
  split; [exact Hlf|exact Hcr].
Qed.

Lemma record_lines_well_formed kvs hs :
  Forall well_formed_header kvs →
  record_lines hs (header_line_text <$> kvs) = Ok (record_headers hs kvs).
Proof.
  intros Hwf. revert hs. induction Hwf as [|[k v] kvs Hkv _ IH]; intros hs; [done|].
  cbn [fmap list_fmap record_lines].
  change (header_line_text (k, v))
    with (k +:+ String COLON (String " " (v +:+ CR_str))).
  rewrite header_line_split, strip_cr_CR by apply Hkv. apply IH.
Qed.

End sections.

(** X6: a request as a client writes it - request line [M P V], lines
    [Key: Value], a blank line and a body, each line ended by
    [\r\n] - is parsed into exactly these parts. *)
Theorem parseRequest_well_formed (m p v : string) (kvs : list (string * string))
    (b : string) :
  word m → word p → word v →
  Forall well_formed_header kvs →
  parseRequest (m +:+ " " +:+ p +:+ " " +:+ v +:+ CRLF +:+
                header_section kvs +:+ CRLF +:+ b)
  = Ok {| method := m; path := p; version := v;
          headers := record_headers ∅ kvs; body := b |}.
Proof.
  intros Hm Hp Hv Hwf.
  pose proof (request_line_tokens m p v CR "" Hm Hp Hv eq_refl) as Hwords.
  set (l1 := m +:+ " " +:+ p +:+ " " +:+ v +:+ String CR "") in *.
  assert (m +:+ " " +:+ p +:+ " " +:+ v +:+ CRLF +:+ header_section kvs +:+ CRLF +:+ b
          = l1 +:+ String LF (lines_text (header_line_text <$> kvs) +:+ CRLF +:+ b)) as ->.
  { unfold l1, CRLF. rewrite header_section_lines.
    by repeat (rewrite app_assoc_s; simpl). }
  rewrite parseRequest_blank_line.
  - rewrite record_lines_well_formed by done. simpl.
    unfold token. by rewrite Hwords.
  - unfold l1. repeat (rewrite mem_app; simpl).
    rewrite !spaceless_mem_LF; [done|apply Hv|apply Hp|apply Hm].
  - apply Forall_fmap. eapply Forall_impl; [exact Hwf|].
    intros kv Hkv. by apply header_line_text_region.
Qed.



Section decimal.

Lemma spaceless_uint (d : Decimal.uint) :
  spaceless (NilEmpty.string_of_uint d) = true.
Proof. induction d; simpl; done. Qed.

Lemma spaceless_uint_zero (d : Decimal.uint) :
  spaceless (NilZero.string_of_uint d) = true ∧ NilZero.string_of_uint d ≠ "".
Proof.
  destruct d; (split; [|done]); try done;
    apply (spaceless_uint (_ d)).
Qed.

Lemma decimal_size_word (n : nat) : word (decimal_size n).
Proof. unfold word, decimal_size. by destruct (spaceless_uint_zero (Nat.to_uint n)). Qed.

Lemma decimal_int_word (z : Z) : word (decimal_int z).
Proof.
  unfold word, decimal_int, NilZero.string_of_int.
  destruct (Z.to_int z) as [d|d]; destruct (spaceless_uint_zero d); [done|].
  split; [done|]. by simpl.
Qed.

End decimal.

(** X7: what the builder writes, the parser of the same server reads back:
    the three headers with their values, and the content as body. *)
Theorem parseRequest_createResponse (status_code : Z)
    (status_msg content content_type : string) :
  Str.mem LF status_msg = false →
  Str.mem LF content_type = false →
  parseRequest (createResponse status_code status_msg content content_type) =
    Ok {| method := "HTTP/1.1";
          path := decimal_int status_code;
          version := token (status_msg +:+ CR_str) 0;
          headers :=
            <["Connection" := "close"]>
              (<["Content-Length" := decimal_size (String.length content)]>
                 (<["Content-Type" := content_type]> ∅));
          body := content |}
  ∧ read_size (decimal_size (String.length content)) = Some (String.length content).
Proof.
  intros Hmsg Htype. split; [|apply read_decimal_size].
  set (kvs := [("Content-Type", content_type);
               ("Content-Length", decimal_size (String.length content));
               ("Connection", "close")]).
  set (l1 := "HTTP/1.1" +:+ String " " (decimal_int status_code +:+
               String " " (status_msg +:+ CR_str))).
  assert (createResponse status_code status_msg content content_type
          = l1 +:+ String LF (lines_text (header_line_text <$> kvs) +:+ CRLF +:+ content))
    as ->.
  { rewrite createResponse_text, <-header_section_lines.
    unfold response_text, l1, kvs, header_text, CRLF, CR_str. simpl.
    by repeat (rewrite app_assoc_s; simpl). }
  assert (Forall well_formed_header kvs) as Hwf.
  { repeat constructor; simpl; try done.
    apply spaceless_mem_LF, decimal_size_word. }
  assert (String.words l1 =
            "HTTP/1.1" :: decimal_int status_code :: String.words (status_msg +:+ CR_str))
    as Hwords.
  { unfold l1. rewrite !words_word_cons; [done|apply decimal_int_word|done..]. }
  rewrite parseRequest_blank_line.
  - rewrite record_lines_well_formed by done. simpl.
    unfold token. by rewrite Hwords.
  - unfold l1. repeat (rewrite mem_app; simpl).
    rewrite Hmsg, spaceless_mem_LF; [done|apply decimal_int_word].
  - apply Forall_fmap. eapply Forall_impl; [exact Hwf|].
    intros kv Hkv. by apply header_line_text_region.
Qed.



(** * Further properties of the connection handler *)

(** ** Handlers with effects *)

Section calls.
Context {W E : Type}.
Implicit Types (routes : gmap string (Calls.handler W E)) (sock : Z)
  (r : recv_result) (w : W).

Lemma calls_no_data routes sock r w :
  bytes_received r ≤ 0 →
  Calls.handleClient routes sock r w = Calls.Run [Close sock] (inl tt) w.
Proof.
  intros Hn. unfold Calls.handleClient. by rewrite (proj2 (Z.ltb_ge _ _)).
Qed.

Lemma calls_request routes sock r w :
  0 < bytes_received r →
  Calls.handleClient routes sock r w =
    match parseRequest (request_str r) with
    | Throw e => Calls.Run [] (inr (Calls.from_parser e)) w
    | Ok req =>
        match routes !! path req with
        | Some h =>
            match h (headers req) w with
            | (inl content, w') =>
                Calls.Run [Send sock (createResponse 200 "OK" content "text/html");
                           Close sock] (inl tt) w'
            | (inr e, w') => Calls.Run [] (inr (Calls.from_handler e)) w'
            end
        | None =>
            Calls.Run
              [Send sock
                 (createResponse 404 "Not Found" (not_found_page (path req)) "text/html");
               Close sock] (inl tt) w
        end
    end.
Proof.
  intros Hn%Z.ltb_lt. unfold Calls.handleClient. rewrite Hn.
  destruct (parseRequest (request_str r)) as [req|e]; [|done].
  destruct (routes !! path req) as [h|]; [|done].
  by destruct (h (headers req) w) as [[content|e] w'].
Qed.

(** With handlers that return and touch nothing, the call is the one
    of [handleClient] above. *)
Lemma calls_returning (srv : HTTPServer) sock r w :
  Calls.handleClient (Calls.returning (W:=W) (E:=E) <$> routes srv) sock r w =
    Calls.Run (events (handleClient srv sock r))
      (ending_of (outcome (handleClient srv sock r))) w.
Proof.
  destruct (Z.le_gt_cases (bytes_received r) 0) as [Hn|Hn].
  - by rewrite calls_no_data, handleClient_no_data.
  - rewrite calls_request, handleClient_request by done.
    destruct (parseRequest (request_str r)) as [req|e]; [|done].
    rewrite lookup_fmap. by destruct (routes srv !! path req).
Qed.

End calls.

(** X8: the ways through the handler, whatever the routes, the socket,
    the read and the state. After an empty or failed read it closes
    the socket and does nothing else. After a read of at least one
    byte: when the parser throws, or the handler of the route throws,
    the exception leaves [handleClient] before any call on the socket
    - nothing is sent and the socket is not closed; otherwise one
    response is sent (the 404 page without calling any handler, or
    200 with the text of the one call of the handler) and the socket
    is closed. In each case the calls are on the socket of the
    connection only, at most one response is sent, and when the
    handler returns the socket has been closed once, as the last
    call. *)
Theorem handleClient_socket_calls {W E : Type}
    (routes : gmap string (Calls.handler W E)) (sock : Z) (r : recv_result) (w : W) :
  (bytes_received r ≤ 0 →
     Calls.handleClient routes sock r w = Calls.Run [Close sock] (inl tt) w)
  ∧ (∀ e, 0 < bytes_received r → parseRequest (request_str r) = Throw e →
       Calls.handleClient routes sock r w =
         Calls.Run [] (inr (Calls.from_parser e)) w)
  ∧ (∀ req, 0 < bytes_received r → parseRequest (request_str r) = Ok req →
       routes !! path req = None →
       Calls.handleClient routes sock r w =
         Calls.Run
           [Send sock
              (createResponse 404 "Not Found" (not_found_page (path req)) "text/html");
            Close sock] (inl tt) w)
  ∧ (∀ req h content w',
       0 < bytes_received r → parseRequest (request_str r) = Ok req →
       routes !! path req = Some h → h (headers req) w = (inl content, w') →
       Calls.handleClient routes sock r w =
         Calls.Run [Send sock (createResponse 200 "OK" content "text/html");
                    Close sock] (inl tt) w')
  ∧ (∀ req h e w',
       0 < bytes_received r → parseRequest (request_str r) = Ok req →
       routes !! path req = Some h → h (headers req) w = (inr e, w') →
       Calls.handleClient routes sock r w =
         Calls.Run [] (inr (Calls.from_handler e)) w')
  ∧ Forall (λ ev, socket_of ev = sock) (Calls.calls (Calls.handleClient routes sock r w))
  ∧ (length (sent (Calls.calls (Calls.handleClient routes sock r w))) ≤ 1)%nat
  ∧ (Calls.ending (Calls.handleClient routes sock r w) = inl tt →
       closed (Calls.calls (Calls.handleClient routes sock r w)) = [sock]
       ∧ last (Calls.calls (Calls.handleClient routes sock r w)) = Some (Close sock))
  ∧ (Calls.ending (Calls.handleClient routes sock r w) ≠ inl tt →
       Calls.calls (Calls.handleClient routes sock r w) = []).
Proof.
  split_and!.
  - apply calls_no_data.
  - intros e Hn Hreq. by rewrite calls_request, Hreq.
  - intros req Hn Hreq Hnone. rewrite calls_request, Hreq by done.
    cbv beta iota. by rewrite Hnone.
  - intros req h content w' Hn Hreq Hh Hcall. rewrite calls_request, Hreq by done.
    cbv beta iota. rewrite Hh. cbv beta iota. by rewrite Hcall.
  - intros req h e w' Hn Hreq Hh Hcall. rewrite calls_request, Hreq by done.
    cbv beta iota. rewrite Hh. cbv beta iota. by rewrite Hcall.
  - destruct (Z.le_gt_cases (bytes_received r) 0) as [Hn|Hn].
    { rewrite calls_no_data by done. by repeat constructor. }
    rewrite calls_request by done.
    destruct (parseRequest (request_str r)) as [req|e]; [|constructor].
    destruct (routes !! path req) as [h|]; [|by repeat constructor].
    destruct (h (headers req) w) as [[content|e] w']; by repeat constructor.
  - destruct (Z.le_gt_cases (bytes_received r) 0) as [Hn|Hn].
    { rewrite calls_no_data by done. simpl. lia. }
    rewrite calls_request by done.
    destruct (parseRequest (request_str r)) as [req|e]; [|simpl; lia].
    destruct (routes !! path req) as [h|]; [|simpl; lia].
    destruct (h (headers req) w) as [[content|e] w']; simpl; lia.
  - destruct (Z.le_gt_cases (bytes_received r) 0) as [Hn|Hn].
    { by rewrite calls_no_data. }
    rewrite calls_request by done.
    destruct (parseRequest (request_str r)) as [req|e]; [|done].
    destruct (routes !! path req) as [h|]; [|done].
    by destruct (h (headers req) w) as [[content|e] w'].
  - destruct (Z.le_gt_cases (bytes_received r) 0) as [Hn|Hn].
    { by rewrite calls_no_data. }
    rewrite calls_request by done.
    destruct (parseRequest (request_str r)) as [req|e]; [|done].
    destruct (routes !! path req) as [h|]; [|done].
    by destruct (h (headers req) w) as [[content|e] w'].
Qed.

(** ** Registration, the buffer, and what is used of the request *)

(** X9: registering a route and serving: a request for the path just
    registered is answered 200 with the body of the new handler,
    whatever was registered before; a request for another path is
    answered as before the registration. *)
Theorem handleClient_addRoute (srv : HTTPServer) (p : string) (h : handler)
    (sock : Z) (r : recv_result) (req : HTTPRequest) :
  0 < bytes_received r →
  parseRequest (request_str r) = Ok req →
  (path req = p →
     handleClient (addRoute p h srv) sock r =
       IO [Send sock (createResponse 200 "OK" (h (headers req)) "text/html");
           Close sock] (Ok tt))
  ∧ (path req ≠ p →
     handleClient (addRoute p h srv) sock r = handleClient srv sock r).
Proof.
  intros Hn Hreq. rewrite !handleClient_request, Hreq by done.
  unfold addRoute; simpl. split.
  - intros ->. by rewrite lookup_insert_eq.
  - intros Hne. by rewrite lookup_insert_ne.
Qed.

Section buffer.
Implicit Types (buffer s : string) (n : nat).

Lemma of_c_str_set n buffer :
  (n < String.length buffer)%nat →
  Str.of_c_str (Str.set n NUL buffer) = Str.of_c_str (Str.take n buffer).
Proof.
  revert n. induction buffer as [|a s IH]; intros n; simpl; [lia|].
  destruct n as [|n]; simpl; [done|].
  intros Hn. destruct (Ascii.eqb a "000"); [done|]. rewrite IH; [done|lia].
Qed.

End buffer.

(** X10: only the bytes [recv] has written are read: what the array holds
    from index [bytes_received] on has no part in what the handler
    does, and after an empty or failed read nothing of the array
    has. *)
Theorem handleClient_reads_received_bytes (srv : HTTPServer) (sock : Z) (n : Z)
    (buffer buffer' : string) :
  (Z.to_nat n < String.length buffer)%nat →
  (Z.to_nat n < String.length buffer')%nat →
  Str.take (Z.to_nat n) buffer = Str.take (Z.to_nat n) buffer' →
  handleClient srv sock {| bytes_received := n; buffer := buffer |}
  = handleClient srv sock {| bytes_received := n; buffer := buffer' |}.
Proof.
  intros Hlen Hlen' Htake.
  destruct (Z.le_gt_cases n 0) as [Hn|Hn].
  - by rewrite !handleClient_no_data.
  - rewrite !handleClient_request by done. unfold request_str. simpl.
    by rewrite !of_c_str_set, Htake.
Qed.



(** X11: of the request, the handler of a connection uses the path and
    the headers only. Two reads whose requests agree on these, handled
    from the same state of the program, give the same calls on the
    socket with the same bytes, the same ending, the exception of a
    handler included, and the same state afterwards, whatever their
    methods, versions and bodies. *)
Theorem handleClient_path_and_headers {W E : Type}
    (routes : gmap string (Calls.handler W E)) (sock : Z)
    (r r' : recv_result) (req req' : HTTPRequest) (w : W) :
  0 < bytes_received r → 0 < bytes_received r' →
  parseRequest (request_str r) = Ok req →
  parseRequest (request_str r') = Ok req' →
  path req = path req' → headers req = headers req' →
  Calls.handleClient routes sock r w = Calls.handleClient routes sock r' w.
Proof.
  intros Hn Hn' Hreq Hreq' Hpath Hheaders.
  rewrite !calls_request, Hreq, Hreq' by done.
  by rewrite Hpath, Hheaders.
Qed.

(** The same request for [/api/data] of [main] at two readings of the
    clock: the two responses differ. *)
Lemma main_routes_clock :
  Calls.calls (Calls.handleClient (E:=Empty_set) Calls.main_routes 7
                 (demo_recv ("GET /api/data HTTP/1.1" +:+ CRLF +:+ CRLF)) 1700000000)
  ≠ Calls.calls (Calls.handleClient (E:=Empty_set) Calls.main_routes 7
                   (demo_recv ("GET /api/data HTTP/1.1" +:+ CRLF +:+ CRLF)) 1700000001).
Proof. vm_compute. discriminate. Qed.

(** * Properties of [main] and [start] *)

Lemma main_server_routes (fd now : Z) (p : string) :
  routes (main_server fd now) !! p = (λ page _, page) <$> main_page now p.
Proof.
  unfold main_server, main_page, addRoute; simpl.
  destruct (decide (p = "/")) as [->|H0].
  { by rewrite 2!lookup_insert_ne, lookup_insert_eq by done. }
  destruct (decide (p = "/about")) as [->|H1].
  { by rewrite lookup_insert_ne, lookup_insert_eq by done. }
  destruct (decide (p = "/api/data")) as [->|H2].
  { by rewrite lookup_insert_eq. }
  by rewrite 3!lookup_insert_ne, lookup_empty by done.
Qed.

(** X12: the server of [main] answers 200 on the three paths [/], [/about]
    and [/api/data], each with its page whatever the headers of the
    request, and 404 on every other path; every answer, the JSON text
    of [/api/data] too, says [text/html]. *)
Theorem main_server_answers (fd now sock : Z) (r : recv_result) (req : HTTPRequest) :
  0 < bytes_received r →
  parseRequest (request_str r) = Ok req →
  handleClient (main_server fd now) sock r =
    IO [Send sock
          match main_page now (path req) with
          | Some page => createResponse 200 "OK" page "text/html"
          | None =>
              createResponse 404 "Not Found" (not_found_page (path req)) "text/html"
          end;
        Close sock] (Ok tt).
Proof.
  intros Hn Hreq. rewrite handleClient_request, Hreq by done.
  rewrite main_server_routes. by destruct (main_page now (path req)).
Qed.

Section start.
Implicit Types (env : environment) (srv : HTTPServer) (evs : list sys_event).

(** X13: when [socket], [bind] or [listen] fails, [start] returns after one
    line on the error stream: it has accepted nothing, spawned nothing
    and announced nothing, [running] and the routes are as before, and
    the descriptor is closed (once, as the last call) when, and only
    when, [socket] had returned one. *)
Theorem start_setup_failure env srv :
  socket_result env < 0 ∨ bind_result env < 0 ∨ listen_result env < 0 →
  ∃ evs srv' message,
    start env srv = (evs, srv', true)
    ∧ running srv' = running srv ∧ routes srv' = routes srv ∧ port srv' = port srv
    ∧ accepts evs = 0%nat ∧ spawned evs = [] ∧ printed evs = []
    ∧ errors evs = [message +:+ endl]
    ∧ (socket_result env < 0 → closed_fds evs = [])
    ∧ (0 ≤ socket_result env →
         closed_fds evs = [socket_result env]
         ∧ last evs = Some (Sys_close (socket_result env))).
Proof.
  intros Hfail. unfold start.
  destruct (Z.ltb_spec (socket_result env) 0) as [Hs|Hs].
  { eexists _, _, _. split_and!; try done. lia. }
  destruct (Z.ltb_spec (bind_result env) 0) as [Hb|Hb].
  { eexists _, _, _. split_and!; try done. lia. }
  destruct (Z.ltb_spec (listen_result env) 0) as [Hl|Hl]; [|lia].
  eexists _, _, _. split_and!; try done. lia.
Qed.

(** X14: the port [start] binds is the port of the server modulo 65536,
    while the two lines it prints show the port as given: they name
    the port bound exactly when the port is between 0 and 65535. *)
Theorem start_bound_port env srv :
  0 ≤ socket_result env → 0 ≤ bind_result env → 0 ≤ listen_result env →
  ∃ loop,
    (start env srv).1.1 =
      [Sys_socket; Sys_setsockopt (socket_result env);
       Sys_bind (socket_result env) (port srv mod 65536);
       Sys_listen (socket_result env) 10;
       Cout ("Server started on port " +:+ decimal_int (port srv) +:+ endl);
       Cout ("Access at: http://localhost:" +:+ decimal_int (port srv) +:+ endl)]
      ++ loop
    ∧ read_int (decimal_int (port srv)) = Some (port srv)
    ∧ (port srv mod 65536 = port srv ↔ 0 ≤ port srv < 65536).
Proof.
  intros Hs Hb Hl. unfold start.
  rewrite (proj2 (Z.ltb_ge _ _) Hs), (proj2 (Z.ltb_ge _ _) Hb), (proj2 (Z.ltb_ge _ _) Hl).
  assert (port srv mod 65536 = port srv ↔ 0 ≤ port srv < 65536) as Hport.
  { split; [intros <-; by apply Z.mod_pos_bound|by apply Z.mod_small]. }
  destruct (accept_loop (socket_result env) (schedule env)) as [evs [|]];
    eexists; (split_and!; [reflexivity|apply read_decimal_int|exact Hport]).
Qed.

Lemma omap_cons_match {A B} (f : A → option B) (a : A) (l : list A) :
  omap f (a :: l) = match f a with Some b => b :: omap f l | None => omap f l end.
Proof. done. Qed.

Lemma accept_loop_running fd (sched : list (bool * Z)) :
  Forall (λ s, s.1 = true) sched →
  ∃ evs,
    accept_loop fd sched = (evs, false)
    ∧ spawned evs = filter (λ c, 0 ≤ c) sched.*2
    ∧ accepts evs = length sched
    ∧ errors evs = (λ _, "Accept failed" +:+ endl) <$> filter (λ c, c < 0) sched.*2
    ∧ closed_fds evs = [] ∧ printed evs = [].
Proof.
  intros Hall. induction Hall as [|[running_seen c] sched Hrun _ IH]; [by exists []|].
  simpl in Hrun. subst. destruct IH as (evs & Hloop & Hsp & Hacc & Herr & Hcl & Hpr).
  cbn [accept_loop]. rewrite Hloop. cbn [fmap list_fmap snd].
  destruct (Z.ltb_spec c 0) as [Hc|Hc]; eexists; (split; [reflexivity|]).
  - rewrite filter_cons_False, filter_cons_True by lia.
    unfold spawned, accepts, errors, closed_fds, printed in *.
    rewrite !omap_cons_match. cbv beta iota.
    rewrite Hsp, Herr, Hcl, Hpr. cbn [length fmap list_fmap]. by rewrite Hacc.
  - rewrite filter_cons_True, filter_cons_False by lia.
    unfold spawned, accepts, errors, closed_fds, printed in *.
    rewrite !omap_cons_match. cbv beta iota.
    rewrite Hsp, Herr, Hcl, Hpr. cbn [length]. by rewrite Hacc.
Qed.

Lemma accept_loop_stopped fd (before after : list (bool * Z)) (c : Z) :
  Forall (λ s, s.1 = true) before →
  accept_loop fd (before ++ (false, c) :: after) =
    ((accept_loop fd before).1, true).
Proof.
  intros Hall. induction Hall as [|[running_seen c'] before Hrun _ IH]; [done|].
  simpl in Hrun. subst. cbn [app accept_loop]. rewrite IH.
  destruct (accept_loop fd before) as [evs exited]. simpl.
  by destruct (c' <? 0).
Qed.

(** X15: while the test of the loop reads [running] as true: each turn
    makes one [accept]; a connection accepted gets one handler, in the
    order of the accepts; a failed [accept] gets one line on the error
    stream and the loop goes on; nothing is closed, and [start] has
    not returned. *)
Theorem start_loop_running env srv :
  0 ≤ socket_result env → 0 ≤ bind_result env → 0 ≤ listen_result env →
  Forall (λ s, s.1 = true) (schedule env) →
  ∃ evs srv',
    start env srv = (evs, srv', false)
    ∧ running srv' = true ∧ server_fd srv' = socket_result env
    ∧ routes srv' = routes srv
    ∧ accepts evs = length (schedule env)
    ∧ spawned evs = filter (λ c, 0 ≤ c) (schedule env).*2
    ∧ errors evs =
        (λ _, "Accept failed" +:+ endl) <$> filter (λ c, c < 0) (schedule env).*2
    ∧ closed_fds evs = [].
Proof.
  intros Hs Hb Hl Hrun. unfold start.
  rewrite (proj2 (Z.ltb_ge _ _) Hs), (proj2 (Z.ltb_ge _ _) Hb), (proj2 (Z.ltb_ge _ _) Hl).
  destruct (accept_loop_running (socket_result env) _ Hrun)
    as (evs & -> & Hsp & Hacc & Herr & Hcl & Hpr).
  eexists _, _. split; [reflexivity|].
  unfold spawned, accepts, errors, closed_fds in *.
  rewrite !omap_app, Hsp, Herr, Hcl, length_app, Hacc. by simpl.
Qed.

(** X16: once the test of the loop reads [running] as false: no further
    [accept] is made, whatever is still waiting; the handlers spawned
    are those of the connections accepted before; the listening socket
    is closed once, as the last call, and [start] returns with
    [running] false. *)
Theorem start_loop_stopped env srv (before after : list (bool * Z)) (c : Z) :
  0 ≤ socket_result env → 0 ≤ bind_result env → 0 ≤ listen_result env →
  schedule env = before ++ (false, c) :: after →
  Forall (λ s, s.1 = true) before →
  ∃ evs srv',
    start env srv = (evs, srv', true)
    ∧ running srv' = false ∧ server_fd srv' = socket_result env
    ∧ routes srv' = routes srv
    ∧ accepts evs = length before
    ∧ spawned evs = filter (λ c, 0 ≤ c) before.*2
    ∧ closed_fds evs = [socket_result env]
    ∧ last evs = Some (Sys_close (socket_result env)).
Proof.
  intros Hs Hb Hl Hsched Hrun. unfold start.
  rewrite (proj2 (Z.ltb_ge _ _) Hs), (proj2 (Z.ltb_ge _ _) Hb), (proj2 (Z.ltb_ge _ _) Hl).
  rewrite Hsched, accept_loop_stopped by done.
  destruct (accept_loop_running (socket_result env) _ Hrun)
    as (evs & -> & Hsp & Hacc & Herr & Hcl & Hpr).
  eexists _, _. split; [reflexivity|].
  unfold spawned, accepts, errors, closed_fds in *. cbn [fst].
  rewrite !omap_app, Hsp, Hcl, !length_app, Hacc, !app_assoc, last_snoc.
  split_and!; simpl; rewrite ?app_nil_r, ?Nat.add_0_r; done.
Qed.

End start.



(** * The further properties on examples *)

Lemma example_lines_region : Forall header_region_line example_lines.
Proof. repeat (constructor; [split; [reflexivity|discriminate]|]). constructor. Qed.

Lemma parseRequest_with_blank_line_witness :
  parseRequest (("POST /submit HTTP/1.1" +:+ CR_str) +:+
                String LF (lines_text example_lines +:+ CRLF +:+ ("x=1" +:+ endl +:+ "y=2")))
  = Ok {| method := "POST"; path := "/submit"; version := "HTTP/1.1";
          headers := <["Accept" := "/*"]> {[ "Host" := "a" ]};
          body := "x=1" +:+ endl +:+ "y=2" |}.
Proof.
  etrans.
  { apply (parseRequest_with_blank_line ("POST /submit HTTP/1.1" +:+ CR_str)
             example_lines ("x=1" +:+ endl +:+ "y=2"));
      [reflexivity|exact example_lines_region]. }
  vm_compute. reflexivity.
Defined.

Lemma parseRequest_without_blank_line_witness :
  parseRequest (("GET / HTTP/1.1" +:+ CR_str) +:+
                String LF (lines_text example_lines +:+ "Last: one"))
  = Ok {| method := "GET"; path := "/"; version := "HTTP/1.1";
          headers := <["Last" := "one"]> (<["Accept" := "/*"]> {[ "Host" := "a" ]});
          body := "" |}.
Proof.
  etrans.
  { apply (parseRequest_without_blank_line ("GET / HTTP/1.1" +:+ CR_str)
             example_lines "Last: one");
      [reflexivity|exact example_lines_region|reflexivity]. }
  vm_compute. reflexivity.
Defined.

Lemma parseRequest_throws_iff_witness :
  parseRequest (("GET / HTTP/1.1" +:+ CR_str) +:+
                String LF (lines_text ["Host: a" +:+ CR_str; "Empty:"] +:+ CRLF +:+ ""))
  = Throw out_of_range.
Proof.
  apply (parseRequest_throws_iff ("GET / HTTP/1.1" +:+ CR_str)
           ["Host: a" +:+ CR_str; "Empty:"] "").
  - reflexivity.
  - repeat (constructor; [split; [reflexivity|discriminate]|]). constructor.
  - right. left. reflexivity.
Defined.

(** A request line that ends with its first colon does no harm. *)
Lemma parseRequest_request_line_colon :
  bare_colon "Host:" = true
  ∧ parseRequest ("Host:" +:+ String LF CRLF) =
      Ok {| method := "Host:"; path := ""; version := ""; headers := ∅; body := "" |}.
Proof. split; by vm_compute. Qed.

Lemma parseRequest_headers_invariant_witness :
  map_Forall header_entry_ok ({[ "Host" := "x" ]} : gmap string string).
Proof.
  refine (parseRequest_headers_invariant demo_request
            {| method := "GET"; path := "/"; version := "HTTP/1.1";
               headers := {[ "Host" := "x" ]}; body := "" |} _).
  vm_compute. reflexivity.
Defined.

Lemma parseRequest_fields_witness :
  "/" = default "" (String.words (first_line demo_request) !! 1%nat)
  ∧ spaceless "/" = true.
Proof.
  destruct (parseRequest_fields demo_request
              {| method := "GET"; path := "/"; version := "HTTP/1.1";
                 headers := {[ "Host" := "x" ]}; body := "" |})
    as (_ & Hpath & _ & _ & Hspace & _).
  - vm_compute. reflexivity.
  - split; [exact Hpath|exact Hspace].
Defined.

Lemma parseRequest_well_formed_witness :
  parseRequest ("PUT" +:+ " " +:+ "/a?b=c" +:+ " " +:+ "HTTP/1.0" +:+ CRLF +:+
                header_section [("Host", "h"); ("Host", "k")] +:+ CRLF +:+ "body")
  = Ok {| method := "PUT"; path := "/a?b=c"; version := "HTTP/1.0";
          headers := record_headers ∅ [("Host", "h"); ("Host", "k")];
          body := "body" |}.
Proof.
  apply (parseRequest_well_formed "PUT" "/a?b=c" "HTTP/1.0"
           [("Host", "h"); ("Host", "k")] "body").
  - split; [discriminate|reflexivity].
  - split; [discriminate|reflexivity].
  - split; [discriminate|reflexivity].
  - repeat constructor.
Defined.

Lemma parseRequest_createResponse_witness :
  parseRequest (createResponse 404 "Not Found" "gone" "text/html") =
    Ok {| method := "HTTP/1.1";
          path := decimal_int 404;
          version := token ("Not Found" +:+ CR_str) 0;
          headers :=
            <["Connection" := "close"]>
              (<["Content-Length" := decimal_size (String.length "gone")]>
                 (<["Content-Type" := "text/html"]> ∅));
          body := "gone" |}.
Proof.
  apply (parseRequest_createResponse 404 "Not Found" "gone" "text/html");
    reflexivity.
Defined.

Lemma handleClient_addRoute_witness :
  handleClient (addRoute "/missing" (λ _, "found") demo_server) 7 (demo_recv demo_missing)
  = IO [Send 7 (createResponse 200 "OK" "found" "text/html"); Close 7] (Ok tt).
Proof.
  apply (handleClient_addRoute demo_server "/missing" (λ _, "found") 7
           (demo_recv demo_missing)
           {| method := "GET"; path := "/missing"; version := "HTTP/1.1";
              headers := ∅; body := "" |}).
  - vm_compute. reflexivity.
  - vm_compute. reflexivity.
  - reflexivity.
Defined.

Lemma handleClient_reads_received_bytes_witness :
  handleClient demo_server 7 {| bytes_received := 25; buffer := demo_missing +:+ "old bytes" |}
  = handleClient demo_server 7 {| bytes_received := 25; buffer := demo_missing +:+ "X" |}.
Proof.
  apply (handleClient_reads_received_bytes demo_server 7 25
           (demo_missing +:+ "old bytes") (demo_missing +:+ "X")).
  - vm_compute. lia.
  - vm_compute. lia.
  - vm_compute. reflexivity.
Defined.

Lemma handleClient_socket_calls_witness :
  Calls.handleClient {[ "/" := demo_counting ]} 7
    (demo_recv ("GET / HTTP/1.1" +:+ CRLF +:+ CRLF)) 0%nat
  = Calls.Run [] (inr (Calls.from_handler "no host")) 1%nat.
Proof.
  destruct (handleClient_socket_calls {[ "/" := demo_counting ]} 7
              (demo_recv ("GET / HTTP/1.1" +:+ CRLF +:+ CRLF)) 0%nat)
    as (_ & _ & _ & _ & Hthrows & _).
  apply (Hthrows {| method := "GET"; path := "/"; version := "HTTP/1.1";
                    headers := ∅; body := "" |} demo_counting "no host" 1%nat).
  - vm_compute. reflexivity.
  - vm_compute. reflexivity.
  - reflexivity.
  - reflexivity.
Defined.

Lemma handleClient_path_and_headers_witness :
  Calls.handleClient {[ "/" := demo_counting ]} 7 (demo_recv demo_request) 0%nat
  = Calls.handleClient {[ "/" := demo_counting ]} 7
      (demo_recv ("DELETE / FTP" +:+ CRLF +:+ "Host: x" +:+ CRLF +:+ CRLF +:+ "body")) 0%nat.
Proof.
  apply (handleClient_path_and_headers {[ "/" := demo_counting ]} 7
           (demo_recv demo_request)
           (demo_recv ("DELETE / FTP" +:+ CRLF +:+ "Host: x" +:+ CRLF +:+ CRLF +:+ "body"))
           {| method := "GET"; path := "/"; version := "HTTP/1.1";
              headers := {[ "Host" := "x" ]}; body := "" |}
           {| method := "DELETE"; path := "/"; version := "FTP";
              headers := {[ "Host" := "x" ]}; body := "body" |}).
  all: vm_compute; reflexivity.
Defined.

Lemma main_server_answers_witness :
  handleClient (main_server 0 1700000000) 7
    (demo_recv ("GET /api/data HTTP/1.1" +:+ CRLF +:+ CRLF))
  = IO [Send 7 (createResponse 200 "OK" (api_data 1700000000) "text/html");
        Close 7] (Ok tt).
Proof.
  apply (main_server_answers 0 1700000000 7
           (demo_recv ("GET /api/data HTTP/1.1" +:+ CRLF +:+ CRLF))
           {| method := "GET"; path := "/api/data"; version := "HTTP/1.1";
              headers := ∅; body := "" |}).
  - vm_compute. reflexivity.
  - vm_compute. reflexivity.
Defined.

Lemma start_setup_failure_witness :
  ∃ evs srv' message,
    start (example_env (-1) 0 [(true, 4)]) (HTTPServer_new 8080 0) = (evs, srv', true)
    ∧ running srv' = false
    ∧ spawned evs = [] ∧ errors evs = [message +:+ endl]
    ∧ closed_fds evs = [3].
Proof.
  destruct (start_setup_failure (example_env (-1) 0 [(true, 4)]) (HTTPServer_new 8080 0))
    as (evs & srv' & message & Hstart & Hrun & _ & _ & _ & Hsp & _ & Herr & _ & Hcl).
  - right. left. simpl. lia.
  - exists evs, srv', message. split_and!; [exact Hstart|exact Hrun|exact Hsp|exact Herr|].
    apply Hcl. simpl. lia.
Defined.

Lemma start_bound_port_witness :
  ∃ loop,
    (start (example_env 0 0 []) (HTTPServer_new 73616 0)).1.1 =
      [Sys_socket; Sys_setsockopt 3; Sys_bind 3 8080; Sys_listen 3 10;
       Cout ("Server started on port " +:+ "73616" +:+ endl);
       Cout ("Access at: http://localhost:" +:+ "73616" +:+ endl)] ++ loop.
Proof.
  destruct (start_bound_port (example_env 0 0 []) (HTTPServer_new 73616 0))
    as (loop & Hevs & _); [simpl; lia..|].
  exists loop. exact Hevs.
Defined.

Lemma start_loop_running_witness :
  ∃ evs srv',
    start (example_env 0 0 [(true, 4); (true, -1); (true, 5)]) (HTTPServer_new 8080 0)
      = (evs, srv', false)
    ∧ accepts evs = 3%nat ∧ spawned evs = [4; 5]
    ∧ errors evs = ["Accept failed" +:+ endl] ∧ closed_fds evs = [].
Proof.
  destruct (start_loop_running (example_env 0 0 [(true, 4); (true, -1); (true, 5)])
              (HTTPServer_new 8080 0))
    as (evs & srv' & Hstart & _ & _ & _ & Hacc & Hsp & Herr & Hcl).
  - simpl. lia.
  - simpl. lia.
  - simpl. lia.
  - repeat constructor.
  - exists evs, srv'. split_and!; [exact Hstart|exact Hacc|exact Hsp|exact Herr|exact Hcl].
Defined.

Lemma start_loop_stopped_witness :
  ∃ evs srv',
    start (example_env 0 0 [(true, 4); (false, 6); (true, 5)]) (HTTPServer_new 8080 0)
      = (evs, srv', true)
    ∧ running srv' = false ∧ accepts evs = 1%nat ∧ spawned evs = [4]
    ∧ closed_fds evs = [3] ∧ last evs = Some (Sys_close 3).
Proof.
  destruct (start_loop_stopped (example_env 0 0 [(true, 4); (false, 6); (true, 5)])
              (HTTPServer_new 8080 0) [(true, 4)] [(true, 5)] 6)
    as (evs & srv' & Hstart & Hrun & _ & _ & Hacc & Hsp & Hcl & Hlast).
  - simpl. lia.
  - simpl. lia.
  - simpl. lia.
  - reflexivity.
  - repeat constructor.
  - exists evs, srv'.
    split_and!; [exact Hstart|exact Hrun|exact Hacc|exact Hsp|exact Hcl|exact Hlast].
Defined.

